(** * RAG-MediBot: a shallow embedding of the retrieval pipeline

    The development follows the four scripts of the repository:
    - [extract_texts.py]   (module [Chunker]):  page text to overlapping chunks;
    - [embed_texts.py]     (module [Embedder]): the remote embedding call and its retry loop;
    - [pinecone_upload.py] (module [Uploader]): dimension reconciliation and batched upsert;
    - [app.py]             (module [App]):      match normalisation, context assembly and
                                               the answer generator with its fallback.

    Python values that flow through these functions (JSON payloads, SDK
    responses, metadata) are untyped in the source; they are modelled by the
    type [pyval].  Python integers are unbounded and modelled by [Z].  A Python
    [str] is modelled by [string], one character per code point, restricted to
    the code points below 256.  Exceptions are modelled by the type [result]. *)

From Stdlib Require Import ZArith QArith Lia Ascii String DecimalString.
From Stdlib Require Import DecimalPos DecimalZ.
From stdpp Require Import base tactics option list strings.

#[local] Open Scope Z_scope.
Set Warnings "-register-all".

(* ===================================================================== *)
(** * Python values and builtins *)
(* ===================================================================== *)

Module Py.

(** JSON-like values, plus attribute-bearing objects as returned by SDKs.
    A dict keeps its insertion order, as in Python. *)
Inductive pyval : Type :=
| PNone
| PBool (b : bool)
| PInt (z : Z)
| PFloat (q : Q)
| PStr (s : string)
| PList (l : list pyval)
| PDict (d : list (string * pyval))
| PObj (attrs : list (string * pyval)).

Definition dict : Type := list (string * pyval).

(** The exceptions that the modelled code can raise or let through. *)
Inductive exn : Type :=
| HTTPError (status : Z)           (* raised by [raise_for_status] *)
| RequestException (detail : string) (* network error or timeout raised by [requests.post] *)
| JSONDecodeError
| TypeError
| AttributeError
| KeyError (key : string)
| ValueError (msg : string)
| UnexpectedResponse (payload : pyval) (* the [ValueError] of [groq_embed_one], with its payload *)
| RuntimeError (msg : string).

Inductive result (A : Type) : Type :=
| Ok (a : A)
| Raise (e : exn).
Arguments Ok {A} a.
Arguments Raise {A} e.

#[global] Instance result_ret : MRet result := fun A a => Ok a.
#[global] Instance result_bind : MBind result := fun A B f m =>
  match m with
  | Ok a => f a
  | Raise e => Raise e
  end.

(** Truth value of an object ([bool(v)]). *)
Definition truthy (v : pyval) : bool :=
  match v with
  | PNone => false
  | PBool b => b
  | PInt z => negb (z =? 0)
  | PFloat q => negb (Qnum q =? 0)
  | PStr s => negb (String.eqb s EmptyString)
  | PList l => match l with [] => false | _ => true end
  | PDict d => match d with [] => false | _ => true end
  | PObj _ => true
  end.

(** [a or b] *)
Definition py_or (a b : pyval) : pyval := if truthy a then a else b.

(** [d.get(k)] on a dict, as an option, and with a default. *)
Fixpoint dict_lookup (d : dict) (k : string) : option pyval :=
  match d with
  | [] => None
  | (k', v) :: d' => if String.eqb k' k then Some v else dict_lookup d' k
  end.

Definition dict_get (d : dict) (k : string) (default : pyval) : pyval :=
  from_option id default (dict_lookup d k).

(** [getattr(v, name, default)].  Only [PObj] carries attributes; the names
    the source asks for (matches, metadata, id, score, preview, text) are not
    attributes of the builtin types. *)
Definition getattr (v : pyval) (name : string) (default : pyval) : pyval :=
  match v with
  | PObj attrs => dict_get attrs name default
  | _ => default
  end.

(** ** Strings *)

(** [c.isspace()] for the code points below 256. *)
Definition is_space (c : ascii) : bool :=
  let n := N_of_ascii c in
  ((9 <=? n) && (n <=? 13) || (28 <=? n) && (n <=? 32) || (n =? 133) || (n =? 160))%N.

Fixpoint lstrip (s : string) : string :=
  match s with
  | EmptyString => EmptyString
  | String c s' => if is_space c then lstrip s' else s
  end.

Fixpoint rstrip (s : string) : string :=
  match s with
  | EmptyString => EmptyString
  | String c s' =>
      match rstrip s' with
      | EmptyString => if is_space c then EmptyString else String c EmptyString
      | r => String c r
      end
  end.

(** [s.strip()] *)
Definition strip (s : string) : string := rstrip (lstrip s).

Definition len_str (s : string) : Z := Z.of_nat (String.length s).

Definition cons_word (w : string) (ws : list string) : list string :=
  match w with
  | EmptyString => ws
  | _ => w :: ws
  end.

(** [split_go s] returns the word being read at the head of [s] (empty if [s]
    starts with white space) and the words after it. *)
Fixpoint split_go (s : string) : string * list string :=
  match s with
  | EmptyString => (EmptyString, [])
  | String c s' =>
      let '(w, ws) := split_go s' in
      if is_space c then (EmptyString, cons_word w ws) else (String c w, ws)
  end.

(** [s.split()]: the maximal runs of non-space characters. *)
Definition split (s : string) : list string :=
  let '(w, ws) := split_go s in cons_word w ws.

(** Every character of [s] satisfies [p]. *)
Fixpoint all_chars (p : ascii -> bool) (s : string) : bool :=
  match s with
  | EmptyString => true
  | String c s' => p c && all_chars p s'
  end.

(** A word, as [split] yields them: not empty and free of white space. *)
Definition is_word (w : string) : bool :=
  negb (String.eqb w EmptyString) && all_chars (fun c => negb (is_space c)) w.

(** [sep.join(parts)] for a list of [str]. *)
Definition join (sep : string) (parts : list string) : string := String.concat sep parts.

(** [s.split(sep)] for a non-empty separator: [skip] counts the characters
    of a matched separator that are still to be passed over, [cur] is the
    piece being read, in reverse. *)
Fixpoint split_sep_go (sep : string) (skip : nat) (cur : string) (s : string) : list string :=
  match s with
  | EmptyString => [String.rev cur]
  | String c s' =>
      match skip with
      | S k => split_sep_go sep k cur s'
      | O =>
          if String.prefix sep s
          then String.rev cur :: split_sep_go sep (Nat.pred (String.length sep)) EmptyString s'
          else split_sep_go sep O (String c cur) s'
      end
  end.

Definition split_sep (sep s : string) : list string := split_sep_go sep O EmptyString s.

(** [needle in hay] on strings. *)
Fixpoint str_contains (needle hay : string) : bool :=
  String.prefix needle hay ||
  match hay with
  | EmptyString => false
  | String _ hay' => str_contains needle hay'
  end.

Fixpoint str_take (n : nat) (s : string) : string :=
  match n, s with
  | S n', String c s' => String c (str_take n' s')
  | _, _ => EmptyString
  end.

Fixpoint str_drop (n : nat) (s : string) : string :=
  match n, s with
  | S n', String _ s' => str_drop n' s'
  | _, _ => s
  end.

(** [str(n)] for an integer. *)
Definition str_of_Z (n : Z) : string := NilZero.string_of_int (Z.to_int n).

(** ** Slices *)

(** A slice bound [i] on a sequence of length [n]: negative bounds count
    from the end, and every bound is clamped to [0..n]. *)
Definition clamp (n i : Z) : Z :=
  if i <? 0 then Z.max (i + n) 0 else Z.min i n.

(** [l[lo:hi]] *)
Definition slice {A : Type} (l : list A) (lo hi : Z) : list A :=
  let n := Z.of_nat (length l) in
  let a := clamp n lo in
  let b := clamp n hi in
  take (Z.to_nat (b - a)) (drop (Z.to_nat a) l).

(** [s[:hi]] on a string. *)
Definition str_slice_to (s : string) (hi : Z) : string :=
  str_take (Z.to_nat (clamp (len_str s) hi)) s.

(** ** Builtins on values *)

(** [len(v)] *)
Definition py_len (v : pyval) : result Z :=
  match v with
  | PStr s => Ok (len_str s)
  | PList l => Ok (Z.of_nat (length l))
  | PDict d => Ok (Z.of_nat (length d))
  | _ => Raise TypeError
  end.

(** [v[:hi]]; a dict cannot be sliced. *)
Definition py_slice_to (v : pyval) (hi : Z) : result pyval :=
  match v with
  | PStr s => Ok (PStr (str_slice_to s hi))
  | PList l => Ok (PList (slice l 0 hi))
  | _ => Raise TypeError
  end.

(** [sep.join(parts)]: every part must be a [str]. *)
Fixpoint strs_of (parts : list pyval) : result (list string) :=
  match parts with
  | [] => Ok []
  | PStr s :: rest => ss ← strs_of rest; Ok (s :: ss)
  | _ :: _ => Raise TypeError
  end.

Definition py_join (sep : string) (parts : list pyval) : result string :=
  ss ← strs_of parts; Ok (join sep ss).

(** [for m in v]: the items a loop over [v] visits. *)
Fixpoint chars (s : string) : list pyval :=
  match s with
  | EmptyString => []
  | String c s' => PStr (String c EmptyString) :: chars s'
  end.

Definition py_iter (v : pyval) : result (list pyval) :=
  match v with
  | PList l => Ok l
  | PStr s => Ok (chars s)
  | PDict d => Ok (map (fun kv => PStr (fst kv)) d)
  | _ => Raise TypeError
  end.

(** [v[key]] for a string key. *)
Definition py_getitem (v : pyval) (key : string) : result pyval :=
  match v with
  | PDict d =>
      match dict_lookup d key with
      | Some x => Ok x
      | None => Raise (KeyError key)
      end
  | _ => Raise TypeError
  end.

(** [v == "key"] for some item [v] of [l]. *)
Definition list_has_str (l : list pyval) (key : string) : bool :=
  existsb (fun v => match v with PStr s => String.eqb s key | _ => false end) l.

End Py.
Import Py.

(* ===================================================================== *)
(** * extract_texts.py: the chunker *)
(* ===================================================================== *)

Module Chunker.

Definition OCR_THRESHOLD_CHARS : Z := 60.

(** One record of [chunks.jsonl]. *)
Record chunk : Type := mk_chunk {
  id : string;
  source : string;
  page : Z;
  chunk_id : Z;
  text : string
}.

(** What the OCR fallback does for a page: [convert_from_path] or
    [image_to_string] raises, the page renders to no image, or the first
    image is read as some text. *)
Inductive ocr_outcome : Type :=
| OcrRaises
| OcrNoImage
| OcrText (t : string).

(** A page of the document: its native text layer ([None] when [get_text]
    gives nothing) and the OCR outcome, should the fallback be taken. *)
Record pdf_page : Type := mk_page {
  native_text : option string;
  ocr : ocr_outcome
}.

(** Lines 25-37: the text of a page, after the OCR fallback. *)
Definition page_text (p : pdf_page) : string :=
  let text := default EmptyString (native_text p) in
  if len_str (strip text) <? OCR_THRESHOLD_CHARS then
    match ocr p with
    | OcrText t => t
    | OcrNoImage => text
    | OcrRaises => EmptyString
    end
  else text.

(** The state of the [while] loop of lines 41-55. *)
Record loop_state : Type := mk_state {
  pos : Z;                 (* [i] *)
  next_id : Z;             (* [chunk_id] *)
  out : list chunk         (* the chunks appended by this page so far *)
}.

Section Page.
Variables (stem name : string) (page_no : Z).
Variables (words : list string) (chunk_size overlap : Z).

Definition chunk_name (cid : Z) : string :=
  stem +:+ "_p" +:+ str_of_Z page_no +:+ "_c" +:+ str_of_Z cid.

(** The text that the window at [i] yields (lines 44-45). *)
Definition window_text (i : Z) : string :=
  strip (join " " (slice words i (i + chunk_size))).

(** One pass through the loop body (lines 44-55). *)
Definition loop_step (st : loop_state) : loop_state :=
  let chunk_text := window_text (pos st) in
  let out' :=
    if String.eqb chunk_text EmptyString then out st
    else out st ++ [mk_chunk (chunk_name (next_id st)) name page_no (next_id st) chunk_text] in
  mk_state (pos st + (chunk_size - overlap)) (next_id st + 1) out'.

(** The loop test of line 43. *)
Definition loop_cond (st : loop_state) : bool :=
  pos st <? Z.of_nat (length words).

(** The [while] loop, run for at most [fuel] passes: [None] when the test
    still holds after [fuel] passes. *)
Fixpoint chunk_loop (fuel : nat) (st : loop_state) : option (list chunk) :=
  if loop_cond st then
    match fuel with
    | O => None
    | S fuel' => chunk_loop fuel' (loop_step st)
    end
  else Some (out st).
End Page.

(** The chunks of one page (lines 38-55); a blank page gives none. *)
Definition chunk_page (fuel : nat) (stem name : string) (page_no : Z)
    (text : string) (chunk_size overlap : Z) : option (list chunk) :=
  if String.eqb (strip text) EmptyString then Some []
  else chunk_loop stem name page_no (split text) chunk_size overlap fuel (mk_state 0 0 []).

(** [extract_chunks_from_pdf_mupdf]: the pages in order, numbered from 1. *)
Fixpoint extract_pages (fuel : nat) (stem name : string) (page_index : Z)
    (pages : list pdf_page) (chunk_size overlap : Z) : option (list chunk) :=
  match pages with
  | [] => Some []
  | p :: rest =>
      cs ← chunk_page fuel stem name (page_index + 1) (page_text p) chunk_size overlap;
      more ← extract_pages fuel stem name (page_index + 1) rest chunk_size overlap;
      Some (cs ++ more)
  end.

Definition extract_chunks_from_pdf_mupdf (fuel : nat) (stem name : string)
    (pages : list pdf_page) (chunk_size overlap : Z) : option (list chunk) :=
  extract_pages fuel stem name 0 pages chunk_size overlap.

(** The windows that the loop is meant to visit, written without the loop:
    these are used to state what the loop computes. *)
Section Windows.
Variables (stem name : string) (page_no : Z).
Variables (words : list string) (chunk_size overlap : Z).

(** The words of the window at word offset [i]. *)
Definition window_words (i : Z) : list string :=
  take (Z.to_nat chunk_size) (drop (Z.to_nat i) words).

Definition chunk_at (i cid : Z) : chunk :=
  mk_chunk (chunk_name stem page_no cid) name page_no cid (join " " (window_words i)).

(** The chunks of [n] successive windows, from offset [i] and id [cid]. *)
Fixpoint windows (n : nat) (i cid : Z) : list chunk :=
  match n with
  | O => []
  | S n' => chunk_at i cid :: windows n' (i + (chunk_size - overlap)) (cid + 1)
  end.

(** The number of passes left when the window is at offset [i]. *)
Definition passes (i : Z) : nat :=
  Z.to_nat ((Z.of_nat (length words) - i + (chunk_size - overlap) - 1) / (chunk_size - overlap)).
End Windows.

(** The words of a chunk, read back from its text. *)
Definition chunk_words (c : chunk) : list string := split (text c).

(** The overlap property in the form "consecutive chunks share exactly
    [overlap] words, except possibly the final chunk": whenever chunk [k+1] is
    not the last one, some run of exactly [overlap] words ends chunk [k]
    and starts chunk [k+1]. *)
Definition overlap_exact_except_final (page_text : string) (chunk_size overlap : Z) : Prop :=
  forall fuel stem name page_no chunks k c c',
    chunk_page fuel stem name page_no page_text chunk_size overlap = Some chunks ->
    chunks !! k = Some c ->
    chunks !! S k = Some c' ->
    (S (S k) < length chunks)%nat ->
    exists shared : list string,
      Z.of_nat (length shared) = overlap /\
      shared `suffix_of` chunk_words c /\
      shared `prefix_of` chunk_words c'.

End Chunker.

(* ===================================================================== *)
(** * The HTTP client, as the scripts use it *)
(* ===================================================================== *)

Module Requests.

(** What one [requests.post] gives: an exception of the transport (no
    connection, timeout), or a response with its status code and its body,
    [None] when the body is not JSON. *)
Inductive http_outcome : Type :=
| NetworkError (detail : string)
| Response (status : Z) (body : option pyval).

(** [r.raise_for_status()]: an [HTTPError] for the codes 400 to 599. *)
Definition raise_for_status (status : Z) : result unit :=
  if (400 <=? status) && (status <? 600) then Raise (HTTPError status) else Ok tt.

(** [r.json()] *)
Definition json (body : option pyval) : result pyval :=
  match body with
  | Some v => Ok v
  | None => Raise JSONDecodeError
  end.

End Requests.
Import Requests.

(* ===================================================================== *)
(** * embed_texts.py: the remote embedding call *)
(* ===================================================================== *)

Module Embedder.

(** Lines 68-74: the embedding inside the decoded body.  For a body that is
    not a dict, ["data" in data] is a membership test on a list, a substring
    test on a string, and a [TypeError] otherwise; subscripting such a body
    with a string is a [TypeError] too. *)
Definition parse_embedding (data : pyval) : result pyval :=
  match data with
  | PDict d =>
      match dict_lookup d "data" with
      | Some (PList (first :: _)) =>
          match first with
          | PDict fd => Ok (py_or (dict_get fd "embedding" PNone) first)
          | _ => Raise AttributeError
          end
      | _ =>
          match dict_lookup d "embedding" with
          | Some emb => Ok emb
          | None => Raise (UnexpectedResponse data)
          end
      end
  | PList l =>
      if list_has_str l "data" then Raise TypeError
      else if list_has_str l "embedding" then Raise TypeError
      else Raise (UnexpectedResponse data)
  | PStr s =>
      if str_contains "data" s then Raise TypeError
      else if str_contains "embedding" s then Raise TypeError
      else Raise (UnexpectedResponse data)
  | _ => Raise TypeError
  end.

(** The body of the [try] (lines 62-74) for one attempt. *)
Definition groq_attempt (o : http_outcome) : result pyval :=
  match o with
  | NetworkError detail => Raise (RequestException detail)
  | Response status body =>
      _ ← raise_for_status status;
      data ← json body;
      parse_embedding data
  end.

(** A finished call: what it returned or raised, how many requests it
    sent, and the pauses it took, in seconds and in order. *)
Record groq_run : Type := mk_run {
  outcome : result pyval;
  attempts : Z;
  sleeps : list Z
}.

Section Call.
Variable MAX_RETRIES : Z.
(** The provider: the outcome of the request sent as attempt number [n]. *)
Variable post : Z -> http_outcome.

(** The [while True] loop of lines 59-90, run for at most [fuel] passes. *)
Fixpoint groq_loop (fuel : nat) (attempt : Z) (slept : list Z) : option groq_run :=
  match fuel with
  | O => None
  | S fuel' =>
      let attempt := attempt + 1 in
      match groq_attempt (post attempt) with
      | Ok emb => Some (mk_run (Ok emb) attempt slept)
      | Raise (HTTPError status) =>
          if negb (status =? 0) && ((400 <=? status) && (status <? 500))
          then Some (mk_run (Raise (HTTPError status)) attempt slept)
          else if attempt >=? MAX_RETRIES
          then Some (mk_run (Raise (HTTPError status)) attempt slept)
          else groq_loop fuel' attempt (slept ++ [2 ^ attempt])
      | Raise e =>
          if attempt >=? MAX_RETRIES
          then Some (mk_run (Raise e) attempt slept)
          else groq_loop fuel' attempt (slept ++ [2 ^ attempt])
      end
  end.

Definition groq_embed_one (fuel : nat) : option groq_run := groq_loop fuel 0 [].
End Call.

(** A failure that the loop answers with a pause and another request:
    anything raised by an attempt except an [HTTPError] with a 4xx status. *)
Definition retried (o : http_outcome) : bool :=
  match groq_attempt o with
  | Ok _ => false
  | Raise (HTTPError status) => negb ((400 <=? status) && (status <? 500))
  | Raise _ => true
  end.

(** The transient failures: a network error, or an HTTP error status
    outside 400-499. *)
Definition transient (o : http_outcome) : bool :=
  match o with
  | NetworkError _ => true
  | Response status _ => (500 <=? status) && (status <? 600)
  end.

(** The pauses before attempt [n+1]: 2, 4, ..., 2^n seconds. *)
Definition backoffs (n : nat) : list Z :=
  map (fun k => 2 ^ Z.of_nat k) (seq 1 n).

(** A JSON array of numbers. *)
Definition is_vector (v : pyval) : bool :=
  match v with
  | PList l => forallb (fun x => match x with PInt _ | PFloat _ => true | _ => false end) l
  | _ => false
  end.

(** The scenario "HTTP 429 twice, then 200 with a valid embedding, with
    three retries, returns the vector": stated for every provider that
    behaves so on its first three requests. *)
Definition retry_429_twice_then_ok : Prop :=
  forall (post : Z -> http_outcome) (fuel : nat) b1 b2 body v,
    (3 <= fuel)%nat ->
    post 1 = Response 429 b1 ->
    post 2 = Response 429 b2 ->
    post 3 = Response 200 (Some body) ->
    parse_embedding body = Ok v ->
    outcome <$> groq_embed_one 3 post fuel = Some (Ok v).

(** A 200 body of one of the two accepted shapes returns its vector, and
    a 200 body of any other shape raises the parsing error at once. *)
Definition accepted_shape (data : pyval) (emb : pyval) : Prop :=
  match data with
  | PDict d =>
      (exists fd rest, dict_lookup d "data" = Some (PList (PDict fd :: rest)) /\
                       dict_lookup fd "embedding" = Some emb) \/
      dict_lookup d "embedding" = Some emb
  | _ => False
  end.

Definition other_shapes_fail_at_once : Prop :=
  forall (MAX_RETRIES : Z) (post : Z -> http_outcome) (fuel : nat) data,
    (1 <= fuel)%nat ->
    post 1 = Response 200 (Some data) ->
    (forall emb, ~ accepted_shape data emb) ->
    exists e, groq_embed_one MAX_RETRIES post fuel = Some (mk_run (Raise e) 1 []).

End Embedder.

(* ===================================================================== *)
(** * pinecone_upload.py: the uploader *)
(* ===================================================================== *)

Module Uploader.

(** A line of [embeddings.jsonl]: blank, a JSON value, or text that
    [json.loads] rejects. *)
Inductive line : Type :=
| Blank
| Json (v : pyval)
| Malformed.

(** [detect_dim]: the length of the embedding of the first non-blank line. *)
Fixpoint detect_dim (file : list line) : result Z :=
  match file with
  | [] => Raise (RuntimeError "No embeddings found in file")
  | Blank :: rest => detect_dim rest
  | Malformed :: _ => Raise JSONDecodeError
  | Json obj :: _ => emb ← py_getitem obj "embedding"; py_len emb
  end.

(** The calls that the vector index service accepts.  The uploader issues
    the first two only. *)
Inductive api_call : Type :=
| CreateIndex (name : string) (dimension : Z) (metric cloud region : string)
| Upsert (index : string) (vectors : list pyval)
| DeleteIndex (name : string).

(** The index that a call creates, writes or deletes. *)
Definition call_index (c : api_call) : string :=
  match c with
  | CreateIndex name _ _ _ _ => name
  | Upsert index _ => index
  | DeleteIndex name => name
  end.

Definition is_upsert (c : api_call) : bool :=
  match c with Upsert _ _ => true | _ => false end.

Definition is_delete (c : api_call) : bool :=
  match c with DeleteIndex _ => true | _ => false end.

(** A call of the SDK used for introspection: the method is absent, the
    call raises, or it returns a value. *)
Inductive sdk_call : Type :=
| NoSuchMethod
| CallRaises
| Returns (v : pyval).

Section Builtins.
(** [int(s)] on a string, [None] for a [ValueError]. *)
Variable int_of_str : string -> option Z.

(** [int(v)] *)
Definition py_int (v : pyval) : result Z :=
  match v with
  | PInt z => Ok z
  | PBool b => Ok (if b then 1 else 0)
  | PFloat q => Ok (Z.quot (Qnum q) (Zpos (Qden q)))
  | PStr s =>
      match int_of_str s with
      | Some z => Ok z
      | None => Raise (ValueError "invalid literal for int()")
      end
  | _ => Raise TypeError
  end.

(** Lines 45-48 and 54-57: the dimension inside a description, when the
    description is a dict and the dimension found is truthy. *)
Definition read_dimension (info : pyval) : result (option Z) :=
  match info with
  | PDict d =>
      dim ← (let top := dict_get d "dimension" PNone in
             if truthy top then Ok top
             else match py_or (dict_get d "index" PNone) (PDict []) with
                  | PDict inner => Ok (dict_get inner "dimension" PNone)
                  | _ => Raise AttributeError
                  end);
      if truthy dim then n ← py_int dim; Ok (Some n) else Ok None
  | _ => Ok None
  end.

(** [try_get_index_dimension]: [describe] is [pc.describe_index(name)],
    [index_describe] is [pc.Index(name).describe_index()]. *)
Definition try_get_index_dimension (describe index_describe : sdk_call) : option Z :=
  let second :=
    match index_describe with
    | Returns info2 =>
        match read_dimension info2 with
        | Ok (Some n) => Some n
        | _ => None
        end
    | _ => None
    end in
  match describe with
  | NoSuchMethod => second
  | CallRaises => None
  | Returns info =>
      match read_dimension info with
      | Ok (Some n) => Some n
      | Ok None => second
      | Raise _ => None
      end
  end.
End Builtins.

(** Lines 108-113: the (id, embedding, metadata) triples of the file. *)
Fixpoint read_items (file : list line) : result (list (pyval * pyval * pyval)) :=
  match file with
  | [] => Ok []
  | Blank :: rest => read_items rest
  | Malformed :: _ => Raise JSONDecodeError
  | Json obj :: rest =>
      vid ← py_getitem obj "id";
      emb ← py_getitem obj "embedding";
      meta ← (match obj with PDict d => Ok (dict_get d "metadata" (PDict [])) | _ => Raise AttributeError end);
      items ← read_items rest;
      Ok ((vid, emb, meta) :: items)
  end.

(** Line 118: one record of an upsert request. *)
Definition vector_of (item : pyval * pyval * pyval) : pyval :=
  let '(vid, emb, meta) := item in
  PDict [("id", vid); ("values", emb); ("metadata", meta)].

(** [items[i:i+size]] for [i] in [range(0, len(items), size)], with a
    positive [size]; [n] bounds the number of batches. *)
Fixpoint batches {A : Type} (n : nat) (size : nat) (items : list A) : list (list A) :=
  match n, items with
  | O, _ => []
  | _, [] => []
  | S n', _ => take size items :: batches n' size (drop size items)
  end.

(** Lines 116-119: the upsert calls.  [range] rejects a zero step and is
    empty for a negative one. *)
Definition upsert_calls (target : string) (BATCH_SIZE : Z)
    (items : list (pyval * pyval * pyval)) : result (list api_call) :=
  if BATCH_SIZE =? 0 then Raise (ValueError "range() arg 3 must not be zero")
  else if BATCH_SIZE <? 0 then Ok []
  else Ok (map (fun b => Upsert target (map vector_of b))
               (batches (length items) (Z.to_nat BATCH_SIZE) items)).

(** The name used when the existing index cannot be reused. *)
Definition derived_name (INDEX_NAME : string) (dim : Z) : string :=
  INDEX_NAME +:+ "-d" +:+ str_of_Z dim.

(** Lines 74-91: the index to upload to.  [existing_dim] is what
    [try_get_index_dimension] returned; it is only asked for an index that
    exists. *)
Definition resolve_target (INDEX_NAME : string) (existing : list string)
    (existing_dim : option Z) (dim : Z) : string :=
  if bool_decide (INDEX_NAME ∈ existing) then
    match existing_dim with
    | Some d => if d =? dim then INDEX_NAME else derived_name INDEX_NAME dim
    | None => derived_name INDEX_NAME dim
    end
  else INDEX_NAME.

(** Lines 94-101: the creation of the target, when it is not listed. *)
Definition create_calls (target : string) (existing : list string) (dim : Z)
    (PINECONE_ENVIRONMENT : string) : list api_call :=
  if bool_decide (target ∈ existing) then []
  else [CreateIndex target dim "cosine" "aws" PINECONE_ENVIRONMENT].

Section Main.
Variable int_of_str : string -> option Z.
Variables (INDEX_NAME PINECONE_ENVIRONMENT : string) (BATCH_SIZE : Z).
(** [existing] is what [get_existing_indexes] returned. *)
Variables (file : list line) (existing : list string).
Variables (describe index_describe : sdk_call).

(** [main]: the calls sent to the service, in order, and the name of the
    index uploaded to, or the exception that ended the run. *)
Definition main : list api_call * result string :=
  match detect_dim file with
  | Raise e => ([], Raise e)
  | Ok dim =>
      let existing_dim := try_get_index_dimension int_of_str describe index_describe in
      let target_index := resolve_target INDEX_NAME existing existing_dim dim in
      let created := create_calls target_index existing dim PINECONE_ENVIRONMENT in
      match read_items file with
      | Raise e => (created, Raise e)
      | Ok items =>
          match upsert_calls target_index BATCH_SIZE items with
          | Raise e => (created, Raise e)
          | Ok ups => (created ++ ups, Ok target_index)
          end
      end
  end.
End Main.

End Uploader.

(* ===================================================================== *)
(** * app.py: retrieval, context assembly, answer generation *)
(* ===================================================================== *)

Module App.

Definition LF : string := String "010"%char EmptyString.
(** The separator of context parts, a blank line. *)
Definition SEP : string := LF +:+ LF.

(** ** [query_pinecone] *)

(** Lines 80-83: the raw matches of a response, a dict or an object. *)
Definition raw_matches (res : pyval) : pyval :=
  match res with
  | PDict d => py_or (dict_get d "matches" (PList [])) (PList [])
  | _ => py_or (getattr res "matches" (PList [])) (PList [])
  end.

(** Lines 86-106: one raw match as the dict with keys id, score, metadata. *)
Definition normalize_match (m : pyval) : pyval :=
  match m with
  | PDict d =>
      PDict [("id", dict_get d "id" PNone);
             ("score", dict_get d "score" PNone);
             ("metadata", dict_get d "metadata" (PDict []))]
  | _ =>
      let md := py_or (getattr m "metadata" (PDict [])) (PDict []) in
      PDict [("id", getattr m "id" PNone);
             ("score", getattr m "score" PNone);
             ("metadata", md)]
  end.

(** [query_pinecone]: [index_query] is [pinecone_index.query]. *)
Definition query_pinecone (index_query : pyval -> Z -> result pyval)
    (vec : pyval) (top_k : Z) : result (list pyval) :=
  res ← index_query vec top_k;
  ms ← py_iter (raw_matches res);
  Ok (map normalize_match ms).

(** ** [build_context_from_matches] *)

(** Line 118: [m.get("metadata", {}) or {}]. *)
Definition match_meta (m : pyval) : result pyval :=
  match m with
  | PDict d => Ok (py_or (dict_get d "metadata" (PDict [])) (PDict []))
  | _ => Raise AttributeError
  end.

(** Lines 119-130: the display text of a match, from its metadata. *)
Definition meta_preview (meta : pyval) : pyval :=
  let preview :=
    match meta with
    | PDict md =>
        py_or (py_or (py_or (py_or (dict_get md "preview" PNone)
                                   (dict_get md "text" PNone))
                            (dict_get md "content" PNone))
                     (dict_get md "chunk" PNone))
              (PStr EmptyString)
    | _ => py_or (getattr meta "preview" (PStr EmptyString))
                 (getattr meta "text" (PStr EmptyString))
    end in
  if truthy preview then preview
  else
    match meta with
    | PStr s => if truthy (PStr (strip s)) then PStr (strip s) else preview
    | _ => preview
    end.

(** Lines 118-130 for one match. *)
Definition display_text (m : pyval) : result pyval :=
  meta ← match_meta m; Ok (meta_preview meta).

(** The [for] loop of lines 117-140, with [parts] and [total] as they
    stand when the loop reaches [matches]. *)
Fixpoint collect_parts (matches : list pyval) (max_chars : Z)
    (parts : list pyval) (total : Z) : result (list pyval) :=
  match matches with
  | [] => Ok parts
  | m :: rest =>
      preview ← display_text m;
      if negb (truthy preview) then collect_parts rest max_chars parts total
      else
        n ← py_len preview;
        if total + n >? max_chars then
          let allowed := max_chars - total in
          cut ← py_slice_to preview allowed;
          Ok (parts ++ [cut])
        else collect_parts rest max_chars (parts ++ [preview]) (total + n)
  end.

Definition build_context_from_matches (matches : list pyval) (max_chars : Z)
    : result string :=
  parts ← collect_parts matches max_chars [] 0;
  joined ← py_join SEP parts;
  Ok (strip joined).

(** ** [generate_answer_ollama] and its fallback *)

Definition system_text : string :=
  "You are Medibot, a medically-informed assistant. You MUST NOT provide definitive diagnoses. " +:+
  "Always recommend consulting a qualified healthcare professional. " +:+
  "If the user describes an emergency (chest pain, severe bleeding, difficulty breathing, sudden weakness or slurred speech), instruct them to call emergency services immediately.".

Definition build_prompt (context question : string) : string :=
  system_text +:+ SEP +:+
  "CONTEXT:" +:+ LF +:+ context +:+ SEP +:+
  "QUESTION:" +:+ LF +:+ question +:+ SEP +:+
  "Using ONLY the context above and general medical knowledge, answer concisely and safely. If the context is insufficient, say so and recommend seeing a doctor.".

Definition UNAVAILABLE : string :=
  "Local LLM unavailable and no retrieved context. Please try again later or consult a medical professional.".

Definition FALLBACK_HEAD : string :=
  "The local language model is currently unavailable or returned an error. " +:+
  "Below are the most relevant excerpts from the documents:" +:+ SEP.

Definition FALLBACK_TAIL : string :=
  SEP +:+
  "This is NOT a diagnosis. If you have severe or urgent symptoms (chest pain, difficulty breathing, heavy bleeding), call emergency services immediately. " +:+
  "For a full evaluation, consult a qualified healthcare professional.".

Definition nonempty (s : string) : bool := negb (String.eqb s EmptyString).

(** Line 188: the trimmed, non-blank segments of the context. *)
Definition snippets_of (context : string) : list string :=
  map strip (filter (fun p => nonempty (strip p) = true) (split_sep SEP context)).

(** [ollama_fallback_extractive] *)
Definition ollama_fallback_extractive (context note_error : string) : string :=
  if negb (nonempty context) || negb (nonempty (strip context)) then
    if nonempty note_error
    then UNAVAILABLE +:+ " (error: " +:+ note_error +:+ ")"
    else UNAVAILABLE
  else
    let top := take 3 (snippets_of context) in
    let summary := join SEP top in
    let fallback := FALLBACK_HEAD +:+ summary +:+ FALLBACK_TAIL in
    if nonempty note_error
    then fallback +:+ SEP +:+ "[debug: " +:+ note_error +:+ "]"
    else fallback.

Section Generate.
(** [str(v)] and [str(e)], as Python renders a value and an exception. *)
Variable py_str : pyval -> string.
Variable str_of_exn : exn -> string.
Variable OLLAMA_MODEL : string.
(** The model server: the outcome of posting a model name and a prompt. *)
Variable post : string -> string -> http_outcome.

(** Lines 169-174, the body of the [try]. *)
Definition ollama_try (prompt : string) : result string :=
  match post OLLAMA_MODEL prompt with
  | NetworkError detail => Raise (RequestException detail)
  | Response status body =>
      _ ← raise_for_status status;
      j ← json body;
      match j with
      | PDict d =>
          match dict_lookup d "response" with
          | Some (PStr s) => Ok (strip s)
          | Some _ => Raise AttributeError
          | None => Ok (py_str j)
          end
      | _ => Ok (py_str j)
      end
  end.

Definition generate_answer_ollama (context question : string) : string :=
  match ollama_try (build_prompt context question) with
  | Ok answer => answer
  | Raise e => ollama_fallback_extractive context (str_of_exn e)
  end.
End Generate.

(** The first truthy value of [md] under the keys [keys], in order, and
    the empty string when there is none. *)
Fixpoint first_nonempty (md : dict) (keys : list string) : pyval :=
  match keys with
  | [] => PStr EmptyString
  | k :: keys' =>
      if truthy (dict_get md k PNone) then dict_get md k PNone
      else first_nonempty md keys'
  end.

(** The entry or attribute "matches" of a response. *)
Definition matches_field (res : pyval) : option pyval :=
  match res with
  | PDict d => dict_lookup d "matches"
  | PObj attrs => dict_lookup attrs "matches"
  | _ => None
  end.

(** The characters of the parts of a context, separators not counted. *)
Definition text_chars (parts : list string) : Z :=
  foldr (fun p n => len_str p + n) 0 parts.

(** The budget property in the form "for every list of matches and every
    non-negative budget, the returned context, separators included, has at
    most [max_chars] characters". *)
Definition context_within_budget : Prop :=
  forall (matches : list pyval) (max_chars : Z) (context : string),
    0 <= max_chars ->
    build_context_from_matches matches max_chars = Ok context ->
    len_str context <= max_chars.

(** [s.endswith(LF)] *)
Fixpoint ends_with_lf (s : string) : bool :=
  match s with
  | EmptyString => false
  | String c EmptyString => Ascii.eqb c "010"
  | String _ s' => ends_with_lf s'
  end.

(** A text that can stand between two separators and be found again: it
    holds no blank line and does not end in a line feed. *)
Definition segment (s : string) : bool :=
  negb (str_contains SEP s) && negb (ends_with_lf s).

(** The segments of a list that are not blank, trimmed. *)
Definition trimmed_segments (segs : list string) : list string :=
  map strip (filter (fun p => nonempty (strip p) = true) segs).

(** The answer that an outcome of the call carries when the model server
    replies as it is to reply: a status that is no error and a JSON object
    with a string under "response".  Every other outcome is a failure of
    the call: no connection or a timeout, an error status, a body that is
    not JSON, a body of another shape. *)
Definition reply_answer (o : http_outcome) : option string :=
  match o with
  | Response status (Some (PDict d)) =>
      match raise_for_status status, dict_lookup d "response" with
      | Ok _, Some (PStr s) => Some s
      | _, _ => None
      end
  | _ => None
  end.

(** The fallback property in the form "whenever the call to the model
    fails in any way, the answer is the fallback for the context", with
    some error detail. *)
Definition fallback_on_any_failure : Prop :=
  forall (py_str : pyval -> string) (str_of_exn : exn -> string) (OLLAMA_MODEL : string)
         (post : string -> string -> http_outcome) (context question : string),
    reply_answer (post OLLAMA_MODEL (build_prompt context question)) = None ->
    exists note_error : string,
      generate_answer_ollama py_str str_of_exn OLLAMA_MODEL post context question
      = ollama_fallback_extractive context note_error.

End App.

(* ===================================================================== *)
(** * The scripts around the claims' functions *)
(* ===================================================================== *)

(** ** extract_texts.py: a chunk as it is written to [chunks.jsonl] *)

Module ChunkFile.
Import Chunker.

(** The characters of a decimal numeral are not "_". *)
Definition not_underscore (c : ascii) : bool := negb (Ascii.eqb c "_").

(** The dict of lines 47-53, which line 71 writes as one JSON line. *)
Definition chunk_json (c : chunk) : pyval :=
  PDict [("id", PStr (id c));
         ("source", PStr (source c));
         ("page", PInt (page c));
         ("chunk_id", PInt (chunk_id c));
         ("text", PStr (text c))].

End ChunkFile.

(** ** embed_texts.py: [embed_text] and [main] *)

Module EmbedMain.
Import Uploader.

(** Line 32: the local model is used when the key, trimmed, is empty. *)
Definition USE_LOCAL_FALLBACK (GROQ_API_KEY : string) : bool :=
  String.eqb (strip GROQ_API_KEY) EmptyString.

(** [embed_text]: [groq] is [groq_embed_one], [local] is [local_embed_one]. *)
Definition embed_text (GROQ_API_KEY : string) (groq local : pyval -> result pyval)
    (text : pyval) : result pyval :=
  if negb (USE_LOCAL_FALLBACK GROQ_API_KEY) then groq text else local text.

(** Lines 117-126: the chunks of the file; blank lines and lines that
    [json.loads] rejects are passed over. *)
Fixpoint read_chunks (file : list line) : list pyval :=
  match file with
  | [] => []
  | Blank :: rest => read_chunks rest
  | Malformed :: rest => read_chunks rest
  | Json c :: rest => c :: read_chunks rest
  end.

Section Main.
(** The embedding function in use, [embed_text]. *)
Variable embed : pyval -> result pyval.
(** Line 27: the pause after each chunk, in seconds, a finite float that
    is read once when the script is loaded. *)
Variable BATCH_SLEEP : Q.
(** [time.sleep]: it returns when the pause is over, or raises without
    pausing (a [ValueError] for a negative length).  What it does depends
    on the length alone, so that every pause of a run ends alike. *)
Variable time_sleep : Q -> result unit.

(** Lines 142-154: the record written for chunk number [i], counted from 1. *)
Definition embed_record (i : Z) (c : pyval) : result pyval :=
  match c with
  | PDict d =>
      let cid := py_or (dict_get d "id" PNone) (PStr ("chunk_" +:+ str_of_Z i)) in
      text ← py_getitem c "text";
      emb ← embed text;
      preview ← py_slice_to (dict_get d "text" PNone) 300;
      Ok (PDict [("id", cid);
                 ("embedding", emb);
                 ("metadata", PDict [("source", dict_get d "source" PNone);
                                     ("page", dict_get d "page" PNone);
                                     ("chunk_id", dict_get d "chunk_id" PNone);
                                     ("preview", preview)])])
  | _ => Raise AttributeError
  end.

(** The loop of lines 141-156: [written] holds the lines already in the
    output file.  The record of a chunk is written before the pause of
    line 156, which is outside the [try]: what the pause raises ends the
    run with that record in the file. *)
Fixpoint embed_chunks (i : Z) (chunks : list pyval) (written : list pyval)
    : list pyval * result unit :=
  match chunks with
  | [] => (written, Ok tt)
  | c :: rest =>
      match embed_record i c with
      | Ok rec =>
          match time_sleep BATCH_SLEEP with
          | Ok _ => embed_chunks (i + 1) rest (written ++ [rec])
          | Raise e => (written ++ [rec], Raise e)
          end
      | Raise e => (written, Raise e)
      end
  end.

(** [main]: the lines of [embeddings.jsonl] after the run, [None] when the
    file was not opened, and how the run ended.  [chunks_file] is [None]
    when [chunks.jsonl] does not exist. *)
Definition main (chunks_file : option (list line)) : option (list pyval) * result unit :=
  match chunks_file with
  | None => (None, Ok tt)
  | Some file =>
      let chunks := read_chunks file in
      if Z.of_nat (length chunks) =? 0 then (None, Ok tt)
      else let '(written, outcome) := embed_chunks 1 chunks [] in (Some written, outcome)
  end.
End Main.

(** [time.sleep] for a length within the range of the clock: a negative
    length is refused. *)
Definition sleep_in_range (secs : Q) : result unit :=
  if Qle_bool 0 secs then Ok tt
  else Raise (ValueError "sleep length must be non-negative").

(** The (id, embedding, metadata) triple that the uploader reads back
    from a record. *)
Definition record_item (rec : pyval) : pyval * pyval * pyval :=
  match rec with
  | PDict d => (dict_get d "id" PNone, dict_get d "embedding" PNone,
                dict_get d "metadata" (PDict []))
  | _ => (PNone, PNone, PNone)
  end.

End EmbedMain.

(** ** pinecone_upload.py: [get_existing_indexes] *)

Module UploadSdk.
Import Uploader.

(** [get_existing_indexes]: [list_indexes] is [pc.list_indexes()], taken
    to behave alike each time it is called, and [names] is [.names()] on
    what it returns.  The conversion to a list is outside the [try]. *)
Definition get_existing_indexes (list_indexes names : sdk_call) : result (list pyval) :=
  let existing :=
    match list_indexes with
    | Returns listing =>
        match names with
        | Returns ns => ns
        | _ => listing
        end
    | _ => PList []
    end in
  py_iter existing.

(** The strings among the items: the only items that [name in existing]
    can find. *)
Definition str_items (items : list pyval) : list string :=
  omap (fun v => match v with PStr s => Some s | _ => None end) items.

(** The vectors that a call writes. *)
Definition upsert_vectors (c : api_call) : list pyval :=
  match c with
  | Upsert _ vectors => vectors
  | _ => []
  end.

(** [main] with the listing of line 71 done through the SDK: the
    dimension is detected first, then the indexes are listed. *)
Definition main_sdk (int_of_str : string -> option Z)
    (INDEX_NAME PINECONE_ENVIRONMENT : string) (BATCH_SIZE : Z) (file : list line)
    (list_indexes names describe index_describe : sdk_call)
    : list api_call * result string :=
  match detect_dim file with
  | Raise e => ([], Raise e)
  | Ok _ =>
      match get_existing_indexes list_indexes names with
      | Raise e => ([], Raise e)
      | Ok items =>
          main int_of_str INDEX_NAME PINECONE_ENVIRONMENT BATCH_SIZE file
               (str_items items) describe index_describe
      end
  end.

End UploadSdk.

(** ** app.py: the route [/ask] *)

Module AskRoute.
Import App.

(** What a route returns: a status code and a JSON body. *)
Record reply : Type := mk_reply {
  status : Z;
  body : pyval
}.

(** Line 229: the preview of the context sent back with the answer. *)
Definition context_preview (context : string) : string :=
  str_slice_to context 1000 +:+ (if len_str context >? 1000 then "..." else EmptyString).

Section Ask.
Variable py_str : pyval -> string.
Variable str_of_exn : exn -> string.
Variable OLLAMA_MODEL : string.
Variable post : string -> string -> http_outcome.
(** [pinecone_index.query] and [embed_query_local]. *)
Variable index_query : pyval -> Z -> result pyval.
Variable embed_query_local : string -> result pyval.
Variables (TOP_K MAX_CONTEXT_CHARS : Z).

(** Lines 225-230, the body of the [try]. *)
Definition answer_question (question : string) : result reply :=
  q_vec ← embed_query_local question;
  matches ← query_pinecone index_query q_vec TOP_K;
  context ← build_context_from_matches matches MAX_CONTEXT_CHARS;
  let answer := generate_answer_ollama py_str str_of_exn OLLAMA_MODEL post context question in
  Ok (mk_reply 200 (PDict [("answer", PStr answer);
                           ("context_preview", PStr (context_preview context))])).

(** [ask], for the decoded body [data].  Line 220 is outside the [try]:
    what it raises is not answered by the route. *)
Definition ask (data : pyval) : result reply :=
  match data with
  | PDict d =>
      match py_or (dict_get d "question" PNone) (PStr EmptyString) with
      | PStr q =>
          let question := strip q in
          if String.eqb question EmptyString
          then Ok (mk_reply 400 (PDict [("error", PStr "empty question")]))
          else
            match answer_question question with
            | Ok r => Ok r
            | Raise e => Ok (mk_reply 500 (PDict [("error", PStr (str_of_exn e))]))
            end
      | _ => Raise AttributeError
      end
  | _ => Raise AttributeError
  end.
End Ask.

End AskRoute.

(* ===================================================================== *)
(** * Facts about the string builtins *)
(* ===================================================================== *)

Section StringFacts.

Lemma app_cons (c : ascii) (s t : string) : String c s +:+ t = String c (s +:+ t).
Proof. reflexivity. Qed.

Lemma app_empty_l (t : string) : EmptyString +:+ t = t.
Proof. reflexivity. Qed.

Lemma app_empty_r (s : string) : s +:+ EmptyString = s.
Proof. induction s as [|c s IH]; [done|]. by rewrite app_cons, IH. Qed.

Lemma app_assoc_str (s t u : string) : (s +:+ t) +:+ u = s +:+ (t +:+ u).
Proof. induction s as [|c s IH]; [done|]. by rewrite !app_cons, IH. Qed.

Lemma length_app_str (s t : string) :
  String.length (s +:+ t) = (String.length s + String.length t)%nat.
Proof. induction s as [|c s IH]; [done|]. rewrite app_cons. simpl. by rewrite IH. Qed.

Lemma app_eq_empty (s t : string) : s +:+ t = EmptyString -> s = EmptyString /\ t = EmptyString.
Proof. destruct s; [by rewrite app_empty_l|]. by rewrite app_cons. Qed.

Lemma eqb_empty_false (s : string) : s <> EmptyString -> String.eqb s EmptyString = false.
Proof. by destruct s. Qed.

Lemma eqb_empty_true (s : string) : String.eqb s EmptyString = true -> s = EmptyString.
Proof. by destruct s. Qed.

Lemma is_word_cons (w : string) :
  is_word w = true ->
  exists c w', w = String c w' /\ is_space c = false /\
               all_chars (fun c => negb (is_space c)) w' = true.
Proof.
  destruct w as [|c w']; [done|].
  unfold is_word. simpl. intros [Hc Hw]%andb_prop.
  exists c, w'. split; [done|]. split; [by destruct (is_space c)|done].
Qed.

Lemma is_word_nonempty (w : string) : is_word w = true -> w <> EmptyString.
Proof. by destruct w. Qed.

(** *** [split] yields words *)

Lemma split_go_words (s : string) :
  all_chars (fun c => negb (is_space c)) (split_go s).1 = true /\
  Forall (fun w => is_word w = true) (split_go s).2.
Proof.
  induction s as [|c s [IHw IHws]]; [by split|].
  simpl. destruct (split_go s) as [w ws]. simpl in *.
  destruct (is_space c) eqn:Hc; simpl.
  - split; [done|]. destruct w; [done|].
    simpl. constructor; [|done]. unfold is_word. by rewrite IHw.
  - split; [by rewrite Hc|done].
Qed.

Lemma split_words (s : string) : Forall (fun w => is_word w = true) (split s).
Proof.
  unfold split. pose proof (split_go_words s) as [Hw Hws].
  destruct (split_go s) as [w ws]. simpl in *.
  destruct w; [done|]. simpl. constructor; [|done]. unfold is_word. by rewrite Hw.
Qed.

(** *** [split] undoes [join] on words *)

Lemma split_go_app_nonspace (w s : string) :
  all_chars (fun c => negb (is_space c)) w = true ->
  split_go (w +:+ s) = (w +:+ (split_go s).1, (split_go s).2).
Proof.
  induction w as [|c w IH]; intros Hw.
  - rewrite !app_empty_l. by destruct (split_go s).
  - simpl in Hw. apply andb_prop in Hw as [Hc Hw].
    rewrite app_cons. simpl. rewrite (IH Hw).
    destruct (is_space c); [done|]. by rewrite app_cons.
Qed.

Lemma split_go_space (s : string) :
  split_go (" " +:+ s) = (EmptyString, split s).
Proof. unfold split. simpl. rewrite app_empty_l. by destruct (split_go s). Qed.

Lemma split_word (w : string) : is_word w = true -> split w = [w].
Proof.
  intros Hw. pose proof (is_word_nonempty _ Hw) as Hne.
  unfold is_word in Hw. apply andb_prop in Hw as [_ Hw].
  unfold split. rewrite <- (app_empty_r w) at 1.
  rewrite (split_go_app_nonspace _ _ Hw). simpl. rewrite app_empty_r.
  by destruct w.
Qed.

Lemma join_cons (sep w : string) (v : string) (ws : list string) :
  join sep (w :: v :: ws) = w +:+ sep +:+ join sep (v :: ws).
Proof. reflexivity. Qed.

Lemma split_join (ws : list string) :
  Forall (fun w => is_word w = true) ws -> split (join " " ws) = ws.
Proof.
  induction ws as [|w ws IH]; intros Hws; [done|].
  apply Forall_cons in Hws as [Hw Hws].
  destruct ws as [|v ws]; [by apply split_word|].
  rewrite join_cons. pose proof (is_word_nonempty _ Hw) as Hne.
  unfold is_word in Hw. apply andb_prop in Hw as [_ Hw].
  unfold split at 1. rewrite (split_go_app_nonspace _ _ Hw), split_go_space.
  rewrite (IH Hws). cbn [fst snd]. rewrite app_empty_r. by destruct w.
Qed.

(** *** [strip] leaves a joined list of words alone *)

Lemma rstrip_app_fixed (s r : string) :
  rstrip r = r -> r <> EmptyString -> rstrip (s +:+ r) = s +:+ r.
Proof.
  intros Hr Hne. induction s as [|c s IH]; [done|].
  rewrite app_cons. simpl. rewrite IH.
  destruct (s +:+ r) eqn:E; [|done].
  by apply app_eq_empty in E as [_ ?].
Qed.

Lemma rstrip_nonspace (w : string) :
  all_chars (fun c => negb (is_space c)) w = true -> rstrip w = w.
Proof.
  induction w as [|c w IH]; [done|]. simpl. intros [Hc Hw]%andb_prop.
  rewrite (IH Hw). destruct w; [|done]. by destruct (is_space c).
Qed.

Lemma join_words_nonempty (ws : list string) :
  ws <> [] -> Forall (fun w => is_word w = true) ws -> join " " ws <> EmptyString.
Proof.
  destruct ws as [|w ws]; [done|]. intros _ [Hw _]%Forall_cons.
  apply is_word_nonempty in Hw.
  destruct ws as [|v ws]; [done|]. rewrite join_cons.
  by intros [? _]%app_eq_empty.
Qed.

Lemma rstrip_join (ws : list string) :
  Forall (fun w => is_word w = true) ws -> rstrip (join " " ws) = join " " ws.
Proof.
  induction ws as [|w ws IH]; intros Hws; [done|].
  pose proof Hws as [Hw Hws']%Forall_cons.
  destruct ws as [|v ws].
  - unfold is_word in Hw. apply andb_prop in Hw as [_ Hw]. by apply rstrip_nonspace.
  - rewrite join_cons, <- app_assoc_str. apply rstrip_app_fixed; [by apply IH|].
    by apply join_words_nonempty.
Qed.

Lemma lstrip_join (ws : list string) :
  Forall (fun w => is_word w = true) ws -> lstrip (join " " ws) = join " " ws.
Proof.
  destruct ws as [|w ws]; [done|]. intros [Hw _]%Forall_cons.
  apply is_word_cons in Hw as (c & w' & -> & Hc & _).
  destruct ws as [|v ws].
  - simpl. by rewrite Hc.
  - rewrite join_cons, app_cons. simpl. by rewrite Hc.
Qed.

Lemma strip_join (ws : list string) :
  Forall (fun w => is_word w = true) ws -> strip (join " " ws) = join " " ws.
Proof. intros Hws. unfold strip. rewrite lstrip_join by done. by apply rstrip_join. Qed.

(** *** A text whose [strip] is empty has no words *)

Lemma rstrip_empty_spaces (s : string) :
  rstrip s = EmptyString -> all_chars is_space s = true.
Proof.
  induction s as [|c s IH]; [done|]. simpl.
  destruct (rstrip s); [|done]. destruct (is_space c); [|done]. intros _. by apply IH.
Qed.

Lemma lstrip_spaces (s : string) :
  all_chars is_space (lstrip s) = true -> all_chars is_space s = true.
Proof.
  induction s as [|c s IH]; [done|]. simpl.
  destruct (is_space c) eqn:Hc; simpl; [done|]. by rewrite Hc.
Qed.

Lemma split_go_spaces (s : string) :
  all_chars is_space s = true -> split_go s = (EmptyString, []).
Proof.
  induction s as [|c s IH]; [done|]. simpl. intros [Hc Hs]%andb_prop.
  by rewrite (IH Hs), Hc.
Qed.

Lemma strip_empty_split (s : string) : strip s = EmptyString -> split s = [].
Proof.
  intros H. unfold split.
  by rewrite (split_go_spaces s (lstrip_spaces _ (rstrip_empty_spaces _ H))).
Qed.

(** *** Lengths *)

Lemma length_lstrip (s : string) : (String.length (lstrip s) <= String.length s)%nat.
Proof. induction s as [|c s IH]; [done|]. simpl. destruct (is_space c); simpl; lia. Qed.

Lemma length_rstrip (s : string) : (String.length (rstrip s) <= String.length s)%nat.
Proof.
  induction s as [|c s IH]; [done|]. simpl.
  destruct (rstrip s); [destruct (is_space c)|]; simpl in *; lia.
Qed.

Lemma length_strip (s : string) : (String.length (strip s) <= String.length s)%nat.
Proof. unfold strip. pose proof (length_rstrip (lstrip s)). pose proof (length_lstrip s). lia. Qed.

Lemma length_str_take (n : nat) (s : string) :
  String.length (str_take n s) = Nat.min n (String.length s).
Proof.
  revert s. induction n as [|n IH]; intros [|c s]; simpl; try done. by rewrite IH.
Qed.

End StringFacts.

(* ===================================================================== *)
(** * The chunker: windows, overlap, termination *)
(* ===================================================================== *)

Section SliceFacts.
Context {A : Type}.

(** A slice with non-negative bounds is a [take] of a [drop]. *)
Lemma slice_window (l : list A) (i s : Z) :
  0 <= i -> 0 <= s ->
  slice l i (i + s) = take (Z.to_nat s) (drop (Z.to_nat i) l).
Proof.
  intros Hi Hs. unfold slice, clamp.
  destruct (Z.ltb_spec i 0) as [?|_]; [lia|].
  destruct (Z.ltb_spec (i + s) 0) as [?|_]; [lia|].
  set (n := Z.of_nat (length l)).
  destruct (Z.le_gt_cases i n) as [Hin|Hin].
  - rewrite (Z.min_l i n) by done.
    destruct (Z.le_gt_cases (i + s) n) as [Hsn|Hsn].
    + rewrite Z.min_l by done. f_equal. lia.
    + rewrite Z.min_r by lia.
      rewrite !take_ge; [done| |]; rewrite length_drop; lia.
  - rewrite (Z.min_r i n), Z.min_r by lia.
    rewrite !(drop_ge l) by lia. by rewrite !take_nil.
Qed.
End SliceFacts.

Module ChunkerFacts.
Import Chunker.

Section Windows.
Variables (stem name : string) (page_no : Z).
Variables (words : list string) (chunk_size overlap : Z).

Let N : Z := Z.of_nat (length words).
Let d : Z := chunk_size - overlap.
Let step := loop_step stem name page_no words chunk_size overlap.
Let run := chunk_loop stem name page_no words chunk_size overlap.

(** ** Termination, for any list of words *)

Lemma chunk_loop_enough_fuel (fuel : nat) (st : loop_state) :
  0 < d -> N - pos st <= Z.of_nat fuel -> is_Some (run fuel st).
Proof.
  intros Hd. revert st. induction fuel as [|fuel IH]; intros st Hfuel.
  - simpl. unfold loop_cond. destruct (Z.ltb_spec (pos st) (Z.of_nat (length words))); [|done].
    unfold N in *. lia.
  - simpl. unfold loop_cond. destruct (Z.ltb_spec (pos st) (Z.of_nat (length words))); [|done].
    apply IH. simpl. unfold N, d in *. lia.
Qed.

Lemma chunk_loop_stuck (fuel : nat) (st : loop_state) :
  d <= 0 -> pos st < N -> run fuel st = None.
Proof.
  intros Hd. revert st. induction fuel as [|fuel IH]; intros st Hpos.
  - simpl. unfold loop_cond. by destruct (Z.ltb_spec (pos st) (Z.of_nat (length words))); [|unfold N in *; lia].
  - simpl. unfold loop_cond. destruct (Z.ltb_spec (pos st) (Z.of_nat (length words))); [|unfold N in *; lia].
    apply IH. simpl. unfold d in *. lia.
Qed.

Lemma pos_iter_step (n : nat) (st : loop_state) :
  pos (Nat.iter n step st) = pos st + Z.of_nat n * d.
Proof.
  induction n as [|n IH]; [simpl; lia|].
  rewrite Nat.iter_succ. unfold step at 1, loop_step. simpl. rewrite IH. unfold d in *. lia.
Qed.

(** ** The windows, for a list of words as [split] yields them *)

Hypothesis Hwords : Forall (fun w => is_word w = true) words.
Hypothesis Hoverlap : 0 <= overlap < chunk_size.

Let window_words := window_words words chunk_size.
Let chunk_at := chunk_at stem name page_no words chunk_size.
Let windows := windows stem name page_no words chunk_size overlap.
Let passes := passes words chunk_size overlap.

Lemma window_words_word (i : Z) : Forall (fun w => is_word w = true) (window_words i).
Proof. unfold window_words, Chunker.window_words. by apply Forall_take, Forall_drop. Qed.

Lemma length_window_words (i : Z) :
  0 <= i ->
  Z.of_nat (length (window_words i)) = Z.min chunk_size (Z.max 0 (N - i)).
Proof.
  intros Hi. unfold window_words, Chunker.window_words. rewrite length_take, length_drop. unfold N in *. lia.
Qed.

Lemma window_words_nonempty (i : Z) : 0 <= i < N -> window_words i <> [].
Proof.
  intros Hi Hnil. pose proof (length_window_words i ltac:(lia)) as Hlen.
  rewrite Hnil in Hlen. simpl in Hlen. lia.
Qed.

Lemma window_text_words (i : Z) :
  0 <= i -> window_text words chunk_size i = join " " (window_words i).
Proof.
  intros Hi. unfold window_text. rewrite slice_window by lia.
  apply strip_join, window_words_word.
Qed.

Lemma loop_step_window (st : loop_state) :
  0 <= pos st < N ->
  step st = mk_state (pos st + d) (next_id st + 1) (out st ++ [chunk_at (pos st) (next_id st)]).
Proof.
  intros Hpos. unfold step, loop_step. rewrite window_text_words by lia.
  rewrite eqb_empty_false; [done|].
  apply join_words_nonempty; [by apply window_words_nonempty|apply window_words_word].
Qed.

Lemma passes_done (i : Z) : N <= i -> passes i = O.
Proof.
  intros Hi. unfold passes, Chunker.passes. fold N d.
  assert ((N - i + d - 1) / d < 1); [|lia].
  apply Z.div_lt_upper_bound; unfold d in *; lia.
Qed.

Lemma passes_step (i : Z) : i < N -> passes i = S (passes (i + d)).
Proof.
  intros Hi. unfold passes, Chunker.passes. fold N d.
  replace (N - i + d - 1) with ((N - (i + d) + d - 1) + 1 * d) by lia.
  rewrite Z.div_add by (unfold d in *; lia).
  assert (0 <= (N - (i + d) + d - 1) / d); [|lia].
  apply Z.div_pos; unfold d in *; lia.
Qed.

Lemma chunk_loop_windows (fuel : nat) (st : loop_state) :
  0 <= pos st -> (passes (pos st) <= fuel)%nat ->
  run fuel st = Some (out st ++ windows (passes (pos st)) (pos st) (next_id st)).
Proof.
  revert st. induction fuel as [|fuel IH]; intros st Hpos Hfuel.
  - simpl. unfold loop_cond.
    destruct (Z.ltb_spec (pos st) (Z.of_nat (length words))) as [Hlt|Hge].
    + rewrite passes_step in Hfuel by done. lia.
    + rewrite passes_done by done. simpl. by rewrite app_nil_r.
  - simpl. unfold loop_cond.
    destruct (Z.ltb_spec (pos st) (Z.of_nat (length words))) as [Hlt|Hge].
    + rewrite passes_step in Hfuel |- * by done.
      fold step. rewrite loop_step_window by (unfold N in *; lia).
      rewrite IH; simpl; [|unfold d in *; lia|lia].
      by rewrite <- app_assoc.
    + rewrite passes_done by done. simpl. by rewrite app_nil_r.
Qed.

Lemma length_windows (n : nat) (i cid : Z) : length (windows n i cid) = n.
Proof.
  unfold windows. revert i cid.
  induction n as [|n IH]; intros; simpl; [done|by rewrite IH].
Qed.

Lemma lookup_windows (n k : nat) (i cid : Z) (c : chunk) :
  windows n i cid !! k = Some c ->
  (k < n)%nat /\ c = chunk_at (i + Z.of_nat k * d) (cid + Z.of_nat k).
Proof.
  unfold windows. revert k i cid. induction n as [|n IH]; intros k i cid; [done|].
  destruct k as [|k]; simpl.
  - intros [= <-]. split; [lia|]. f_equal; lia.
  - intros [Hk ->]%IH. split; [lia|]. fold d. f_equal; lia.
Qed.

Lemma passes_bound (k : nat) : (k < passes 0)%nat -> Z.of_nat k * d < N.
Proof.
  unfold passes, Chunker.passes. fold N d. intros Hk.
  assert (0 < d) by (unfold d in *; lia).
  pose proof (Z.mul_div_le (N - 0 + d - 1) d ltac:(done)).
  nia.
Qed.

Lemma passes_le_words : 1 <= N -> (passes 0 <= length words)%nat.
Proof.
  intros HN. unfold passes, Chunker.passes. fold N d.
  assert ((N - 0 + d - 1) / d <= N); [|unfold N in *; lia].
  apply Z.div_le_upper_bound; unfold d in *; nia.
Qed.

(** The words shared by the windows at [i] and [i + d]. *)
Lemma window_words_overlap (i : Z) :
  0 <= i ->
  drop (Z.to_nat d) (window_words i) = take (Z.to_nat overlap) (window_words (i + d)).
Proof.
  intros Hi. unfold window_words, Chunker.window_words.
  rewrite take_take, Nat.min_l by lia.
  replace (Z.to_nat chunk_size) with (Z.to_nat d + Z.to_nat overlap)%nat by (unfold d in *; lia).
  rewrite <- take_drop_commute, drop_drop.
  do 2 f_equal. unfold d in *. lia.
Qed.

End Windows.

(** C6, as amended.  For a page text with at least one word and sizes with
    [0 <= overlap < chunk_size], given fuel for one pass per word, the chunker
    returns the windows taken at word offsets 0, S-O, 2(S-O), ..., one chunk per
    window and none dropped: chunk [k] carries the id [k], a text that is not
    empty and already trimmed, and as words the next at most [chunk_size]
    words from offset [k (S-O)].  The words of chunk [k] from position S-O on are
    the first words of chunk [k+1]; they are exactly [overlap] words whenever
    chunk [k] is full. *)
Theorem chunk_page_windows (fuel : nat) (stem name : string) (page_no : Z)
    (page_text : string) (chunk_size overlap : Z) :
  (1 <= length (split page_text))%nat ->
  0 <= overlap < chunk_size ->
  (length (split page_text) <= fuel)%nat ->
  exists chunks : list chunk,
    chunk_page fuel stem name page_no page_text chunk_size overlap = Some chunks /\
    Z.of_nat (length chunks) =
      (Z.of_nat (length (split page_text)) + (chunk_size - overlap) - 1) / (chunk_size - overlap) /\
    forall (k : nat) (c : chunk), chunks !! k = Some c ->
      chunk_id c = Z.of_nat k /\
      text c <> EmptyString /\
      strip (text c) = text c /\
      chunk_words c =
        slice (split page_text) (Z.of_nat k * (chunk_size - overlap))
              (Z.of_nat k * (chunk_size - overlap) + chunk_size) /\
      (1 <= length (chunk_words c))%nat /\
      Z.of_nat (length (chunk_words c)) <= chunk_size /\
      forall c' : chunk, chunks !! S k = Some c' ->
        drop (Z.to_nat (chunk_size - overlap)) (chunk_words c) =
          take (Z.to_nat overlap) (chunk_words c') /\
        (Z.of_nat (length (chunk_words c)) = chunk_size ->
         Z.of_nat (length (take (Z.to_nat overlap) (chunk_words c'))) = overlap).
Proof.
  intros HN Hov Hfuel.
  set (words := split page_text) in *.
  set (d := chunk_size - overlap).
  assert (Hwords : Forall (fun w => is_word w = true) words) by apply split_words.
  assert (Hblank : String.eqb (strip page_text) EmptyString = false).
  { destruct (String.eqb (strip page_text) EmptyString) eqn:E; [|done].
    apply eqb_empty_true, strip_empty_split in E. fold words in E. rewrite E in HN. simpl in HN. lia. }
  pose proof (passes_le_words words chunk_size overlap Hov ltac:(lia)) as Hpasses.
  eexists. split.
  { unfold chunk_page. rewrite Hblank. fold words.
    rewrite (chunk_loop_windows stem name page_no words chunk_size overlap Hwords Hov);
      simpl; [done|lia|lia]. }
  split.
  { rewrite length_windows. unfold passes. fold d.
    replace (Z.of_nat (length words) - 0 + d - 1) with (Z.of_nat (length words) + d - 1) by lia.
    apply Z2Nat.id, Z.div_pos; unfold d; lia. }
  intros k c Hk. apply lookup_windows in Hk as [Hk ->]. fold d.
  pose proof (passes_bound words chunk_size overlap Hov k Hk) as Hkd. fold d in Hkd.
  replace (0 + Z.of_nat k * d) with (Z.of_nat k * d) by lia.
  replace (0 + Z.of_nat k) with (Z.of_nat k) by lia.
  set (i := Z.of_nat k * d) in *.
  assert (Hi : 0 <= i) by (unfold i, d; nia).
  pose proof (window_words_word words chunk_size Hwords i) as Hww.
  pose proof (length_window_words words chunk_size overlap Hov i Hi) as Hlen.
  assert (Hcw : forall j cid, chunk_words (chunk_at stem name page_no words chunk_size j cid)
                = window_words words chunk_size j).
  { intros j cid. unfold chunk_words, chunk_at. simpl.
    apply split_join, window_words_word, Hwords. }
  split; [done|]. split.
  { simpl. apply join_words_nonempty; [|done]. apply (window_words_nonempty words chunk_size overlap Hov). lia. }
  split; [simpl; by apply strip_join|].
  rewrite Hcw. split; [by rewrite slice_window by lia|].
  split; [lia|]. split; [lia|].
  intros c' Hk'. apply lookup_windows in Hk' as [Hk' ->]. fold d.
  rewrite Hcw.
  replace (0 + Z.of_nat (S k) * d) with (i + d) by (unfold i; lia).
  split; [by apply window_words_overlap|].
  intros Hfull. rewrite length_take.
  pose proof (length_window_words words chunk_size overlap Hov (i + d) ltac:(unfold d; lia)) as Hlen'.
  unfold d in *. lia.
Qed.

(** A page of ten words, windows of four words overlapping by two. *)
Lemma chunk_page_windows_witness :
  exists chunks : list chunk,
    chunk_page 10 "doc" "doc.pdf" 1 "a b c d e f g h i j" 4 2 = Some chunks /\
    Z.of_nat (length chunks) = 5.
Proof.
  destruct (chunk_page_windows 10 "doc" "doc.pdf" 1 "a b c d e f g h i j" 4 2)
    as (chunks & Hrun & Hlen & _).
  - vm_compute. lia.
  - lia.
  - vm_compute. lia.
  - exists chunks. split; [exact Hrun|]. rewrite Hlen. reflexivity.
Defined.

(** The overlap property as stated fails on the page "a b c" with windows
    of four words overlapping by three: the chunks are "a b c", "b c" and
    "c"; the second is not the final one, yet it has only two words to
    share with the first. *)
Lemma overlap_exact_except_final_fails :
  ~ overlap_exact_except_final "a b c" 4 3.
Proof.
  intros H.
  destruct (H 3%nat "doc" "doc.pdf" 1
              [mk_chunk "doc_p1_c0" "doc.pdf" 1 0 "a b c";
               mk_chunk "doc_p1_c1" "doc.pdf" 1 1 "b c";
               mk_chunk "doc_p1_c2" "doc.pdf" 1 2 "c"]
              0%nat
              (mk_chunk "doc_p1_c0" "doc.pdf" 1 0 "a b c")
              (mk_chunk "doc_p1_c1" "doc.pdf" 1 1 "b c"))
    as (shared & Hlen & _ & Hpre); [reflexivity..|simpl; lia|].
  apply prefix_length in Hpre.
  change (chunk_words (mk_chunk "doc_p1_c1" "doc.pdf" 1 1 "b c")) with ["b"; "c"] in Hpre.
  simpl in Hpre. lia.
Qed.

(** C10.  The loop of the chunker ends on every list of words when
    [overlap < chunk_size], within one pass per word; with
    [overlap >= chunk_size] and a word list that is not empty it never
    ends, since the window offset never rises above 0. *)
Theorem chunk_loop_terminates_iff_advances (stem name : string) (page_no : Z)
    (words : list string) (chunk_size overlap : Z) :
  (overlap < chunk_size ->
   is_Some (chunk_loop stem name page_no words chunk_size overlap
                       (length words) (mk_state 0 0 []))) /\
  (chunk_size <= overlap -> words <> [] ->
   (forall fuel : nat,
      chunk_loop stem name page_no words chunk_size overlap fuel (mk_state 0 0 []) = None) /\
   (forall n : nat,
      pos (Nat.iter n (loop_step stem name page_no words chunk_size overlap) (mk_state 0 0 [])) <= 0)).
Proof.
  split.
  - intros Hlt. apply chunk_loop_enough_fuel; simpl; lia.
  - intros Hge Hne. split.
    + intros fuel. apply chunk_loop_stuck; [lia|].
      simpl. destruct words; [done|simpl; lia].
    + intros n. rewrite pos_iter_step. simpl. nia.
Qed.

Lemma chunk_loop_terminates_iff_advances_witness :
  is_Some (chunk_loop "doc" "doc.pdf" 1 ["a"; "b"; "c"] 2 1 3 (mk_state 0 0 [])) /\
  chunk_loop "doc" "doc.pdf" 1 ["a"; "b"; "c"] 2 2 1000 (mk_state 0 0 []) = None.
Proof.
  split.
  - apply (proj1 (chunk_loop_terminates_iff_advances "doc" "doc.pdf" 1 ["a"; "b"; "c"] 2 1)). lia.
  - apply (proj2 (chunk_loop_terminates_iff_advances "doc" "doc.pdf" 1 ["a"; "b"; "c"] 2 2));
      [lia|discriminate].
Defined.

End ChunkerFacts.

(* ===================================================================== *)
(** * The embedding call: retries, backoff, response shapes *)
(* ===================================================================== *)

Module EmbedderFacts.
Import Embedder.

Lemma transient_retried (o : http_outcome) : transient o = true -> retried o = true.
Proof.
  destruct o as [detail|status body]; [done|].
  unfold transient, retried, groq_attempt, raise_for_status. intros H.
  destruct (Z.leb_spec 400 status), (Z.ltb_spec status 600),
    (Z.leb_spec 500 status), (Z.ltb_spec status 500); simpl in *; try done; lia.
Qed.

Section Loop.
Variable MAX_RETRIES : Z.
Variable post : Z -> http_outcome.
Let loop := groq_loop MAX_RETRIES post.

(** One pass of the loop, by what the attempt gives. *)

Lemma groq_loop_ok (fuel : nat) (attempt : Z) (slept : list Z) (emb : pyval) :
  groq_attempt (post (attempt + 1)) = Ok emb ->
  loop (S fuel) attempt slept = Some (mk_run (Ok emb) (attempt + 1) slept).
Proof. intros H. unfold loop. simpl. by rewrite H. Qed.

Lemma groq_loop_client_error (fuel : nat) (attempt : Z) (slept : list Z) (status : Z) :
  groq_attempt (post (attempt + 1)) = Raise (HTTPError status) ->
  400 <= status < 500 ->
  loop (S fuel) attempt slept = Some (mk_run (Raise (HTTPError status)) (attempt + 1) slept).
Proof.
  intros H Hs. unfold loop. simpl. rewrite H.
  destruct (Z.eqb_spec status 0), (Z.leb_spec 400 status), (Z.ltb_spec status 500);
    simpl; try done; lia.
Qed.

Lemma groq_loop_retry (fuel : nat) (attempt : Z) (slept : list Z) :
  retried (post (attempt + 1)) = true ->
  attempt + 1 < MAX_RETRIES ->
  loop (S fuel) attempt slept = loop fuel (attempt + 1) (slept ++ [2 ^ (attempt + 1)]).
Proof.
  intros H Hlt. unfold loop, retried in *. simpl.
  destruct (Z.geb_spec (attempt + 1) MAX_RETRIES) as [?|_]; [lia|].
  destruct (groq_attempt (post (attempt + 1))) as [emb|[]]; try done.
  apply negb_true_iff in H. rewrite H. by rewrite andb_false_r.
Qed.

Lemma groq_loop_give_up (fuel : nat) (attempt : Z) (slept : list Z) (e : exn) :
  retried (post (attempt + 1)) = true ->
  groq_attempt (post (attempt + 1)) = Raise e ->
  MAX_RETRIES <= attempt + 1 ->
  loop (S fuel) attempt slept = Some (mk_run (Raise e) (attempt + 1) slept).
Proof.
  intros H He Hge. unfold loop, retried in *. simpl. rewrite He in *.
  destruct (Z.geb_spec (attempt + 1) MAX_RETRIES) as [_|?]; [|lia].
  destruct e; try done.
  apply negb_true_iff in H. rewrite H. by rewrite andb_false_r.
Qed.

(** [n] retried failures in a row, below the cap: [n] pauses, doubling. *)
Lemma groq_loop_retries (n a fuel : nat) (slept : list Z) :
  (forall j : nat, (a < j <= a + n)%nat -> retried (post (Z.of_nat j)) = true) ->
  Z.of_nat (a + n) < MAX_RETRIES ->
  loop (n + fuel) (Z.of_nat a) slept =
  loop fuel (Z.of_nat (a + n)) (slept ++ map (fun k => 2 ^ Z.of_nat k) (seq (S a) n)).
Proof.
  revert a slept. induction n as [|n IH]; intros a slept Hfail Hcap.
  - simpl. by rewrite Nat.add_0_r, app_nil_r.
  - replace (S n + fuel)%nat with (S (n + fuel)) by lia.
    rewrite groq_loop_retry.
    + replace (Z.of_nat a + 1) with (Z.of_nat (S a)) by lia.
      rewrite IH.
      * replace (S a + n)%nat with (a + S n)%nat by lia.
        simpl. by rewrite <- app_assoc.
      * intros j Hj. apply Hfail. lia.
      * lia.
    + replace (Z.of_nat a + 1) with (Z.of_nat (S a)) by lia. apply Hfail. lia.
    + lia.
Qed.

(** The loop ends within [MAX_RETRIES] passes, or one if that is less. *)
Lemma groq_loop_total (fuel : nat) (attempt : Z) (slept : list Z) :
  MAX_RETRIES - attempt <= Z.of_nat fuel -> (1 <= fuel)%nat ->
  is_Some (loop fuel attempt slept).
Proof.
  revert attempt slept. induction fuel as [|fuel IH]; intros attempt slept Hfuel H1; [lia|].
  unfold loop. simpl.
  destruct (groq_attempt (post (attempt + 1))) as [emb|e]; [done|].
  assert (Hrec : forall sl, (attempt + 1 >=? MAX_RETRIES) = false ->
                   is_Some (loop fuel (attempt + 1) sl)).
  { intros sl Hlt. destruct (Z.geb_spec (attempt + 1) MAX_RETRIES); [done|].
    apply IH; lia. }
  destruct e; try (destruct (attempt + 1 >=? MAX_RETRIES) eqn:E; [done|by apply Hrec]).
  destruct (negb (status =? 0) && ((400 <=? status) && (status <? 500))); [done|].
  destruct (attempt + 1 >=? MAX_RETRIES) eqn:E; [done|by apply Hrec].
Qed.
End Loop.

(** After [k-1] transient failures below the cap, the call stands before
    attempt [k], having paused 2, 4, ..., 2^(k-1) seconds. *)
Lemma groq_embed_one_after_transients (MAX_RETRIES : Z) (post : Z -> http_outcome)
    (fuel k : nat) :
  (1 <= k)%nat ->
  Z.of_nat k <= MAX_RETRIES ->
  (k <= fuel)%nat ->
  (forall j : nat, (1 <= j < k)%nat -> transient (post (Z.of_nat j)) = true) ->
  groq_embed_one MAX_RETRIES post fuel =
  groq_loop MAX_RETRIES post (S (fuel - k)) (Z.of_nat (k - 1)) (backoffs (k - 1)).
Proof.
  intros Hk Hcap Hfuel Hfail. unfold groq_embed_one, backoffs.
  replace fuel with ((k - 1) + S (fuel - k))%nat at 1 by lia.
  change 0 with (Z.of_nat 0).
  rewrite groq_loop_retries; [done| |lia].
  intros j Hj. apply transient_retried, Hfail. lia.
Qed.

Lemma groq_attempt_client_error (status : Z) (body : option pyval) :
  400 <= status < 600 -> groq_attempt (Response status body) = Raise (HTTPError status).
Proof.
  intros Hs. unfold groq_attempt, raise_for_status.
  destruct (Z.leb_spec 400 status), (Z.ltb_spec status 600); simpl; try done; lia.
Qed.

(** C3.  With a cap of at least one attempt, suppose the first [k-1]
    attempts fail transiently (network error, or HTTP error status outside
    400-499).  Then the call pauses 2, 4, ..., 2^(k-1) seconds between them,
    and at attempt [k]:
    - an HTTP status in 400-499 is raised at once, with no further request;
    - a successful attempt returns its value;
    - once more a transient failure, with [k = MAX_RETRIES], raises that
      last error. *)
Theorem groq_retry_policy (MAX_RETRIES : Z) (post : Z -> http_outcome) (fuel k : nat) :
  (1 <= k)%nat ->
  Z.of_nat k <= MAX_RETRIES ->
  (k <= fuel)%nat ->
  (forall j : nat, (1 <= j < k)%nat -> transient (post (Z.of_nat j)) = true) ->
  (forall status body,
     post (Z.of_nat k) = Response status body -> 400 <= status < 500 ->
     groq_embed_one MAX_RETRIES post fuel =
       Some (mk_run (Raise (HTTPError status)) (Z.of_nat k) (backoffs (k - 1)))) /\
  (forall emb,
     groq_attempt (post (Z.of_nat k)) = Ok emb ->
     groq_embed_one MAX_RETRIES post fuel =
       Some (mk_run (Ok emb) (Z.of_nat k) (backoffs (k - 1)))) /\
  (transient (post (Z.of_nat k)) = true -> Z.of_nat k = MAX_RETRIES ->
   exists e,
     groq_attempt (post (Z.of_nat k)) = Raise e /\
     groq_embed_one MAX_RETRIES post fuel =
       Some (mk_run (Raise e) (Z.of_nat k) (backoffs (k - 1)))).
Proof.
  intros Hk Hcap Hfuel Hfail.
  rewrite (groq_embed_one_after_transients _ _ _ _ Hk Hcap Hfuel Hfail).
  replace (Z.of_nat k) with (Z.of_nat (k - 1) + 1) in * by lia.
  split; [|split].
  - intros status body Hpost Hs. apply groq_loop_client_error; [|done].
    rewrite Hpost. apply groq_attempt_client_error. lia.
  - intros emb Hok. by apply groq_loop_ok.
  - intros Htr Hlast. pose proof (transient_retried _ Htr) as Hre.
    destruct (groq_attempt (post (Z.of_nat (k - 1) + 1))) as [emb|e] eqn:E.
    + unfold retried in Hre. by rewrite E in Hre.
    + exists e. split; [done|]. apply groq_loop_give_up; [done|done|lia].
Qed.

(** Two timeouts, then a 404 on the third of three attempts. *)
Lemma groq_retry_policy_witness :
  groq_embed_one 3 (fun n => if n <=? 2 then NetworkError "timed out" else Response 404 None) 5
  = Some (mk_run (Raise (HTTPError 404)) 3 [2; 4]).
Proof.
  refine (proj1 (groq_retry_policy 3
            (fun n => if n <=? 2 then NetworkError "timed out" else Response 404 None)
            5 3 _ _ _ _) 404 None _ _).
  - lia.
  - lia.
  - lia.
  - intros j Hj. destruct j as [|[|[|j]]]; [lia|reflexivity|reflexivity|lia].
  - reflexivity.
  - lia.
Defined.

(** The scenario as stated fails: a 429 is a status in 400-499, so the
    first response ends the call with an [HTTPError]. *)
Lemma retry_429_twice_then_ok_fails : ~ retry_429_twice_then_ok.
Proof.
  intros H.
  specialize (H (fun n => if n <=? 2 then Response 429 None
                          else Response 200 (Some (PDict [("embedding", PList [PInt 1])])))
                3%nat None None (PDict [("embedding", PList [PInt 1])]) (PList [PInt 1])).
  discriminate H; (lia || reflexivity).
Qed.

(** C2, as amended.  With [MAX_RETRIES = 3]: when the first two attempts
    fail transiently (network error or HTTP error status outside 400-499) and
    the third is a 200 with a valid embedding, the call returns that
    embedding after pauses of 2 and 4 seconds; when the first response is
    a 429, the call raises it at once. *)
Theorem retry_transient_twice_then_ok (post : Z -> http_outcome) (fuel : nat) :
  (3 <= fuel)%nat ->
  (forall body emb,
     transient (post 1) = true -> transient (post 2) = true ->
     post 3 = Response 200 (Some body) -> parse_embedding body = Ok emb ->
     groq_embed_one 3 post fuel = Some (mk_run (Ok emb) 3 [2; 4])) /\
  (forall body,
     post 1 = Response 429 body ->
     groq_embed_one 3 post fuel = Some (mk_run (Raise (HTTPError 429)) 1 [])).
Proof.
  intros Hfuel. split.
  - intros body emb H1 H2 H3 Hparse.
    rewrite (groq_embed_one_after_transients 3 post fuel 3); [|lia|lia|lia|].
    + apply groq_loop_ok. change (Z.of_nat (3 - 1) + 1) with 3. by rewrite H3.
    + intros j Hj. destruct j as [|[|[|j]]]; [lia|done|done|lia].
  - intros body H1.
    rewrite (groq_embed_one_after_transients 3 post fuel 1); [|lia|lia|lia|intros; lia].
    apply groq_loop_client_error; [|lia].
    change (Z.of_nat (1 - 1) + 1) with 1. rewrite H1. apply groq_attempt_client_error. lia.
Qed.

Lemma retry_transient_twice_then_ok_witness :
  groq_embed_one 3 (fun n => if n <=? 2 then Response 503 None
                             else Response 200 (Some (PDict [("embedding", PList [PInt 1])]))) 3
  = Some (mk_run (Ok (PList [PInt 1])) 3 [2; 4]).
Proof.
  refine (proj1 (retry_transient_twice_then_ok
            (fun n => if n <=? 2 then Response 503 None
                      else Response 200 (Some (PDict [("embedding", PList [PInt 1])]))) 3 _)
            (PDict [("embedding", PList [PInt 1])]) (PList [PInt 1]) _ _ _ _);
    (lia || reflexivity).
Defined.

(** The two accepted shapes: a non-empty "data" list whose first element
    holds a truthy "embedding", and, failing a usable "data" list, a
    top-level "embedding". *)
Lemma parse_embedding_accepts (d fd : dict) (rest : list pyval) (emb : pyval) :
  (dict_lookup d "data" = Some (PList (PDict fd :: rest)) ->
   dict_lookup fd "embedding" = Some emb -> truthy emb = true ->
   parse_embedding (PDict d) = Ok emb) /\
  (dict_lookup d "data" = None -> dict_lookup d "embedding" = Some emb ->
   parse_embedding (PDict d) = Ok emb).
Proof.
  split.
  - intros Hd Hfd Ht. unfold parse_embedding. rewrite Hd.
    unfold dict_get, py_or. rewrite Hfd. simpl. by rewrite Ht.
  - intros Hd He. unfold parse_embedding. by rewrite Hd, He.
Qed.

(** C4 on the code.  A 200 body whose "data" list holds an element
    without "embedding" makes the call return that element, a dict; and a
    200 body of no known shape is requested again, three times in all with
    pauses of 2 and 4 seconds, before the parsing error is raised. *)
Theorem groq_unexpected_shapes :
  groq_embed_one 3 (fun _ => Response 200 (Some (PDict [("data", PList [PDict [("index", PInt 0)]])]))) 3
    = Some (mk_run (Ok (PDict [("index", PInt 0)])) 1 []) /\
  is_vector (PDict [("index", PInt 0)]) = false /\
  groq_embed_one 3 (fun _ => Response 200 (Some (PDict [("error", PStr "bad model")]))) 3
    = Some (mk_run (Raise (UnexpectedResponse (PDict [("error", PStr "bad model")]))) 3 [2; 4]).
Proof. repeat split. Qed.

Lemma other_shapes_fail_at_once_fails : ~ other_shapes_fail_at_once.
Proof.
  intros H.
  destruct (H 3 (fun _ => Response 200 (Some (PDict [("data", PList [PDict [("index", PInt 0)]])])))
              1%nat (PDict [("data", PList [PDict [("index", PInt 0)]])]))
    as [e He]; [lia|reflexivity| |discriminate He].
  intros emb [(fd & rest & Hd & Hfd)|Htop]; [|discriminate Htop].
  injection Hd as <- <-. discriminate Hfd.
Qed.

End EmbedderFacts.

(* ===================================================================== *)
(** * The uploader: which index is created and written *)
(* ===================================================================== *)

Module UploaderFacts.
Import Uploader.

Lemma derived_name_fresh (INDEX_NAME : string) (dim : Z) :
  derived_name INDEX_NAME dim <> INDEX_NAME.
Proof.
  unfold derived_name. intros H. apply (f_equal String.length) in H.
  rewrite !length_app_str in H. simpl in H. lia.
Qed.

Lemma resolve_target_redirect (INDEX_NAME : string) (existing : list string)
    (existing_dim : option Z) (dim : Z) :
  INDEX_NAME ∈ existing ->
  existing_dim = None \/ (exists d, existing_dim = Some d /\ d <> dim) ->
  resolve_target INDEX_NAME existing existing_dim dim = derived_name INDEX_NAME dim.
Proof.
  intros Hin Hdim. unfold resolve_target. rewrite bool_decide_eq_true_2 by done.
  destruct Hdim as [->|(d & -> & Hd)]; [done|].
  by destruct (Z.eqb_spec d dim).
Qed.

Lemma upsert_calls_target (target : string) (BATCH_SIZE : Z)
    (items : list (pyval * pyval * pyval)) (ups : list api_call) :
  upsert_calls target BATCH_SIZE items = Ok ups ->
  Forall (fun c => is_upsert c = true /\ call_index c = target) ups.
Proof.
  unfold upsert_calls. destruct (BATCH_SIZE =? 0); [done|].
  destruct (BATCH_SIZE <? 0); intros [= <-]; [done|].
  apply Forall_map, Forall_true. by intros b.
Qed.

(** The batches of a positive size are the items, cut in order. *)
Lemma concat_batches {A : Type} (n size : nat) (items : list A) :
  (1 <= size)%nat -> (length items <= n)%nat ->
  concat (batches n size items) = items.
Proof.
  intros Hsize. revert items. induction n as [|n IH]; intros items Hn.
  - destruct items; [done|simpl in Hn; lia].
  - destruct items as [|x items]; [done|].
    change (batches (S n) size (x :: items))
      with (take size (x :: items) :: batches n size (drop size (x :: items))).
    simpl concat. rewrite IH; [by rewrite take_drop|].
    rewrite length_drop. simpl in *. lia.
Qed.

(** C5.  Let the first record of the file have dimension [D].
    - When the target name is listed and its dimension is either read and
      different from [D], or not read at all, every call of the run names the
      derived index [<target>-d<D>], none names the target, none is a
      deletion, and a run that completes returns the derived name.
    - When the resolved target is not listed, the first call of the run
      creates it with dimension [D] and the cosine metric, and every upsert
      comes after it and writes to it. *)
Theorem upload_redirects_and_creates (int_of_str : string -> option Z)
    (INDEX_NAME PINECONE_ENVIRONMENT : string) (BATCH_SIZE : Z)
    (file : list line) (existing : list string) (describe index_describe : sdk_call)
    (D : Z) :
  detect_dim file = Ok D ->
  (INDEX_NAME ∈ existing ->
   try_get_index_dimension int_of_str describe index_describe = None \/
   (exists d, try_get_index_dimension int_of_str describe index_describe = Some d /\ d <> D) ->
   Forall (fun c => call_index c = derived_name INDEX_NAME D /\
                    call_index c <> INDEX_NAME /\
                    is_delete c = false)
          (main int_of_str INDEX_NAME PINECONE_ENVIRONMENT BATCH_SIZE file existing
                describe index_describe).1 /\
   forall name,
     (main int_of_str INDEX_NAME PINECONE_ENVIRONMENT BATCH_SIZE file existing
           describe index_describe).2 = Ok name ->
     name = derived_name INDEX_NAME D) /\
  (resolve_target INDEX_NAME existing
     (try_get_index_dimension int_of_str describe index_describe) D ∉ existing ->
   exists ups,
     (main int_of_str INDEX_NAME PINECONE_ENVIRONMENT BATCH_SIZE file existing
           describe index_describe).1 =
       CreateIndex (resolve_target INDEX_NAME existing
                      (try_get_index_dimension int_of_str describe index_describe) D)
                   D "cosine" "aws" PINECONE_ENVIRONMENT :: ups /\
     Forall (fun c => is_upsert c = true /\
                      call_index c = resolve_target INDEX_NAME existing
                        (try_get_index_dimension int_of_str describe index_describe) D)
            ups).
Proof.
  intros Hdim. unfold main. rewrite Hdim.
  set (existing_dim := try_get_index_dimension int_of_str describe index_describe).
  set (target := resolve_target INDEX_NAME existing existing_dim D).
  split.
  - intros Hin Hmis.
    assert (Htarget : target = derived_name INDEX_NAME D)
      by by apply resolve_target_redirect.
    assert (Hcreated : Forall (fun c => call_index c = derived_name INDEX_NAME D /\
                                        call_index c <> INDEX_NAME /\ is_delete c = false)
                              (create_calls target existing D PINECONE_ENVIRONMENT)).
    { unfold create_calls. destruct (bool_decide (target ∈ existing)); [done|].
      constructor; [|done]. simpl. rewrite Htarget.
      split; [done|]. split; [apply derived_name_fresh|done]. }
    destruct (read_items file) as [items|e]; [|by split].
    destruct (upsert_calls target BATCH_SIZE items) as [ups|e] eqn:Hups; [|by split].
    simpl. split; [|by intros name [= <-]].
    apply Forall_app. split; [done|].
    apply upsert_calls_target in Hups.
    eapply Forall_impl; [exact Hups|]. intros c [Hu Hc]. rewrite Hc, Htarget.
    split; [done|]. split; [apply derived_name_fresh|by destruct c].
  - intros Hnew. unfold create_calls. rewrite bool_decide_eq_false_2 by done.
    destruct (read_items file) as [items|e]; [|by exists []].
    destruct (upsert_calls target BATCH_SIZE items) as [ups|e] eqn:Hups; [|by exists []].
    exists ups. split; [done|]. by apply upsert_calls_target in Hups.
Qed.

(** Three records of dimension 3 against an index "medibot-rag" whose
    description gives no dimension. *)
Lemma upload_redirects_and_creates_witness :
  Forall (fun c => call_index c = derived_name "medibot-rag" 3 /\
                   call_index c <> "medibot-rag" /\
                   is_delete c = false)
    (main (fun _ => None) "medibot-rag" "us-east-1" 2
        [Json (PDict [("id", PStr "a"); ("embedding", PList [PInt 1; PInt 2; PInt 3])]);
         Blank;
         Json (PDict [("id", PStr "b"); ("embedding", PList [PInt 4; PInt 5; PInt 6])]);
         Json (PDict [("id", PStr "c"); ("embedding", PList [PInt 7; PInt 8; PInt 9])])]
        ["medibot-rag"] (Returns (PObj [("dimension", PInt 384)])) NoSuchMethod).1.
Proof.
  refine (proj1 (proj1 (upload_redirects_and_creates (fun _ => None) "medibot-rag" "us-east-1" 2
        [Json (PDict [("id", PStr "a"); ("embedding", PList [PInt 1; PInt 2; PInt 3])]);
         Blank;
         Json (PDict [("id", PStr "b"); ("embedding", PList [PInt 4; PInt 5; PInt 6])]);
         Json (PDict [("id", PStr "c"); ("embedding", PList [PInt 7; PInt 8; PInt 9])])]
        ["medibot-rag"] (Returns (PObj [("dimension", PInt 384)])) NoSuchMethod 3 _) _ _)).
  - reflexivity.
  - apply list_elem_of_here.
  - left. reflexivity.
Defined.

End UploaderFacts.

(* ===================================================================== *)
(** * The application: matches, display text, context budget *)
(* ===================================================================== *)

Module AppFacts.
Import App.

(** ** [query_pinecone] *)

(** C8.  For a response, dict or object, whose matches are a list (or are
    absent or null, which counts as the empty list), [query_pinecone] does
    not raise and returns the normalised matches in the order of the
    response.  A mapping-shaped match gives the dict of its "id" and
    "score", [None] when missing, and its "metadata", the empty dict when
    missing; an attribute-bearing match gives the same from its
    attributes, with the empty dict also for a falsy metadata. *)
Theorem query_pinecone_uniform (index_query : pyval -> Z -> result pyval)
    (vec : pyval) (top_k : Z) (res : pyval) (ms : list pyval) :
  index_query vec top_k = Ok res ->
  matches_field res = Some (PList ms) \/
  ((matches_field res = None \/ matches_field res = Some PNone) /\ ms = []) ->
  query_pinecone index_query vec top_k = Ok (map normalize_match ms) /\
  (forall d : dict,
     normalize_match (PDict d) =
       PDict [("id", default PNone (dict_lookup d "id"));
              ("score", default PNone (dict_lookup d "score"));
              ("metadata", default (PDict []) (dict_lookup d "metadata"))]) /\
  (forall attrs : dict,
     normalize_match (PObj attrs) =
       PDict [("id", default PNone (dict_lookup attrs "id"));
              ("score", default PNone (dict_lookup attrs "score"));
              ("metadata", py_or (default (PDict []) (dict_lookup attrs "metadata")) (PDict []))]).
Proof.
  intros Hres Hms. split; [|split].
  - unfold query_pinecone. rewrite Hres. simpl.
    assert (Hraw : raw_matches res = PList ms).
    { unfold raw_matches, getattr, dict_get, matches_field in *.
      destruct Hms as [H|[[H|H] ->]].
      - destruct res; try done; rewrite H; simpl; by destruct ms.
      - destruct res; try done; by rewrite H.
      - destruct res; try done; by rewrite H. }
    by rewrite Hraw.
  - intros d. unfold normalize_match, dict_get.
    by destruct (dict_lookup d "id"), (dict_lookup d "score"), (dict_lookup d "metadata").
  - intros attrs. unfold normalize_match, getattr, dict_get.
    by destruct (dict_lookup attrs "id"), (dict_lookup attrs "score"),
         (dict_lookup attrs "metadata").
Qed.

(** An object response with one mapping match and one object match. *)
Lemma query_pinecone_uniform_witness :
  query_pinecone
    (fun _ _ => Ok (PObj [("matches",
                           PList [PDict [("id", PStr "doc_p1_c0")];
                                  PObj [("score", PInt 1); ("metadata", PNone)]])]))
    (PList []) 5
  = Ok [PDict [("id", PStr "doc_p1_c0"); ("score", PNone); ("metadata", PDict [])];
        PDict [("id", PNone); ("score", PInt 1); ("metadata", PDict [])]].
Proof.
  refine (proj1 (query_pinecone_uniform
    (fun _ _ => Ok (PObj [("matches",
                           PList [PDict [("id", PStr "doc_p1_c0")];
                                  PObj [("score", PInt 1); ("metadata", PNone)]])]))
    (PList []) 5
    (PObj [("matches",
            PList [PDict [("id", PStr "doc_p1_c0")];
                   PObj [("score", PInt 1); ("metadata", PNone)]])])
    [PDict [("id", PStr "doc_p1_c0")]; PObj [("score", PInt 1); ("metadata", PNone)]]
    _ _)).
  - reflexivity.
  - left. reflexivity.
Defined.

(** ** The display text of a match *)

Lemma strip_nonempty_arg (s : string) : strip s <> EmptyString -> s <> EmptyString.
Proof. by intros H ->. Qed.

Lemma truthy_str (s : string) : truthy (PStr s) = true <-> s <> EmptyString.
Proof. destruct s; simpl; split; done. Qed.

Lemma meta_preview_dict (md : dict) :
  meta_preview (PDict md) = first_nonempty md ["preview"; "text"; "content"; "chunk"].
Proof.
  unfold meta_preview, first_nonempty, py_or.
  destruct (truthy (dict_get md "preview" PNone)) eqn:E1.
  { by rewrite !E1. }
  destruct (truthy (dict_get md "text" PNone)) eqn:E2.
  { by rewrite !E2. }
  destruct (truthy (dict_get md "content" PNone)) eqn:E3.
  { by rewrite !E3. }
  destruct (truthy (dict_get md "chunk" PNone)) eqn:E4.
  { by rewrite !E4. }
  done.
Qed.

Lemma collect_parts_skip (before after : list pyval) (m preview : pyval)
    (max_chars : Z) (parts : list pyval) (total : Z) :
  display_text m = Ok preview -> truthy preview = false ->
  collect_parts (before ++ m :: after) max_chars parts total =
  collect_parts (before ++ after) max_chars parts total.
Proof.
  intros Hm Hfalsy. revert parts total.
  induction before as [|a before IH]; intros parts total; simpl.
  - rewrite Hm. simpl. by rewrite Hfalsy.
  - destruct (display_text a) as [p|e]; [|done]. simpl.
    destruct (negb (truthy p)); [apply IH|].
    destruct (py_len p) as [n|e]; [|done]. simpl.
    destruct (total + n >? max_chars); [done|apply IH].
Qed.

(** C9.  The display text of a match with a mapping as metadata is the
    first truthy (for a string: non-empty) value under preview, text,
    content, chunk, in this order, and the empty string when there is
    none; with a string that is not blank as metadata, it is that string,
    trimmed.  A match whose display text is empty is passed over: the
    context is the one the remaining matches give. *)
Theorem context_display_text :
  (forall (d md : dict),
     dict_lookup d "metadata" = Some (PDict md) ->
     display_text (PDict d) = Ok (first_nonempty md ["preview"; "text"; "content"; "chunk"])) /\
  (forall (d : dict) (s : string),
     dict_lookup d "metadata" = Some (PStr s) ->
     strip s <> EmptyString ->
     display_text (PDict d) = Ok (PStr (strip s))) /\
  (forall (before after : list pyval) (m preview : pyval) (max_chars : Z),
     display_text m = Ok preview ->
     truthy preview = false ->
     build_context_from_matches (before ++ m :: after) max_chars =
     build_context_from_matches (before ++ after) max_chars).
Proof.
  split; [|split].
  - intros d md Hmd. rewrite <- meta_preview_dict.
    unfold display_text, match_meta, dict_get. rewrite Hmd. by destruct md.
  - intros d s Hmd Hs. unfold display_text, match_meta, dict_get. rewrite Hmd. simpl.
    pose proof (strip_nonempty_arg _ Hs) as Hne.
    unfold py_or. rewrite (proj2 (truthy_str s) Hne). simpl.
    unfold meta_preview. simpl. by rewrite (eqb_empty_false _ Hs).
  - intros before after m preview max_chars Hm Hfalsy.
    unfold build_context_from_matches. by rewrite (collect_parts_skip _ _ _ _ _ _ _ Hm Hfalsy).
Qed.

(** A match whose metadata is a padded string, and a match without text
    between two others. *)
Lemma context_display_text_witness :
  display_text (PDict [("id", PStr "x"); ("metadata", PStr "  fever  ")]) = Ok (PStr "fever") /\
  build_context_from_matches
    ([PDict [("metadata", PDict [("text", PStr "rest")])]] ++
      PDict [("metadata", PDict [("preview", PStr EmptyString)])] ::
     [PDict [("metadata", PDict [("chunk", PStr "fluids")])]]) 100
  = build_context_from_matches
    ([PDict [("metadata", PDict [("text", PStr "rest")])]] ++
     [PDict [("metadata", PDict [("chunk", PStr "fluids")])]]) 100.
Proof.
  split.
  - apply (proj1 (proj2 context_display_text)
             [("id", PStr "x"); ("metadata", PStr "  fever  ")] "  fever  ");
      [reflexivity|discriminate].
  - apply (proj2 (proj2 context_display_text) _ _ _ (PStr EmptyString)); reflexivity.
Defined.

(** ** The budget of the context *)

Lemma strs_of_app_inv (parts : list pyval) (v : pyval) (ss : list string) :
  strs_of (parts ++ [v]) = Ok ss ->
  exists ss0 s, strs_of parts = Ok ss0 /\ v = PStr s /\ ss = ss0 ++ [s].
Proof.
  revert ss. induction parts as [|p parts IH]; intros ss; simpl.
  - destruct v; try done. intros [= <-]. by exists [], s.
  - destruct p; try done.
    destruct (strs_of (parts ++ [v])) as [ss'|e] eqn:E; [|done].
    simpl. intros [= <-].
    destruct (IH ss' eq_refl) as (ss0 & s0 & -> & -> & ->).
    by exists (s :: ss0), s0.
Qed.

Lemma text_chars_app (ss : list string) (s : string) :
  text_chars (ss ++ [s]) = text_chars ss + len_str s.
Proof. unfold text_chars. induction ss as [|x ss IH]; simpl in *; lia. Qed.

Lemma len_str_slice_to (s : string) (hi : Z) : 0 <= hi -> len_str (str_slice_to s hi) <= hi.
Proof.
  intros Hhi. unfold str_slice_to, len_str, clamp. rewrite length_str_take.
  destruct (Z.ltb_spec hi 0); lia.
Qed.

(** The texts collected fit the budget that is left, separators aside. *)
Lemma collect_parts_budget (matches : list pyval) (max_chars : Z)
    (parts : list pyval) (total : Z) (ps : list pyval) (ss : list string) :
  total <= max_chars ->
  collect_parts matches max_chars parts total = Ok ps ->
  strs_of ps = Ok ss ->
  exists ss0,
    strs_of parts = Ok ss0 /\
    text_chars ss <= text_chars ss0 + (max_chars - total) /\
    (length ss <= length ss0 + length matches)%nat.
Proof.
  revert parts total. induction matches as [|m rest IH]; intros parts total Hle; simpl.
  - intros [= <-] Hss. exists ss. split; [done|]. split; lia.
  - destruct (display_text m) as [preview|e]; [|done]. simpl.
    destruct (negb (truthy preview)).
    { intros Hrun Hss. destruct (IH _ _ Hle Hrun Hss) as (ss0 & H0 & Hc & Hl).
      exists ss0. split; [done|]. split; lia. }
    destruct (py_len preview) as [n|e] eqn:Hn; [|done]. simpl.
    destruct (Z.gtb_spec (total + n) max_chars) as [Hcut|Hfit].
    + destruct (py_slice_to preview (max_chars - total)) as [cut|e] eqn:Hslice; [|done].
      simpl. intros [= <-] Hss.
      apply strs_of_app_inv in Hss as (ss0 & c & H0 & -> & ->).
      exists ss0. split; [done|]. rewrite text_chars_app, length_app. simpl.
      destruct preview; try done. injection Hslice as <-.
      pose proof (len_str_slice_to s (max_chars - total) ltac:(lia)).
      split; lia.
    + intros Hrun Hss.
      destruct (IH _ _ Hfit Hrun Hss) as (ss0' & H0' & Hc & Hl).
      apply strs_of_app_inv in H0' as (ss0 & s & H0 & -> & ->).
      exists ss0. split; [done|].
      rewrite text_chars_app in Hc. rewrite length_app in Hl. simpl in *.
      injection Hn as <-. split; lia.
Qed.

Lemma len_str_join (ss : list string) :
  len_str (join SEP ss) = text_chars ss + 2 * Z.max 0 (Z.of_nat (length ss) - 1).
Proof.
  unfold text_chars, len_str. induction ss as [|s ss IH]; [done|].
  destruct ss as [|t ss]; [simpl; lia|].
  rewrite join_cons, !length_app_str.
  change (String.length SEP) with 2%nat.
  cbn [foldr length] in *. lia.
Qed.

(** X16.  What the running total does bound: the texts put into the
    context, without the separators between them. *)
Lemma context_text_within_budget (matches : list pyval) (max_chars : Z) (context : string) :
  0 <= max_chars ->
  build_context_from_matches matches max_chars = Ok context ->
  exists parts : list string,
    context = strip (join SEP parts) /\
    (length parts <= length matches)%nat /\
    text_chars parts <= max_chars /\
    len_str context <= max_chars + 2 * Z.max 0 (Z.of_nat (length parts) - 1).
Proof.
  intros Hmax. unfold build_context_from_matches, py_join.
  destruct (collect_parts matches max_chars [] 0) as [ps|e] eqn:Hps; [|done]. simpl.
  destruct (strs_of ps) as [ss|e] eqn:Hss; [|done]. simpl. intros [= <-].
  destruct (collect_parts_budget _ _ _ _ _ _ Hmax Hps Hss) as (ss0 & [= <-] & Hc & Hl).
  exists ss. split; [done|]. simpl in *. split; [lia|]. split; [lia|].
  pose proof (length_strip (join SEP ss)) as Hstrip.
  pose proof (len_str_join ss) as Hjoin. unfold len_str in *. lia.
Qed.

(** C1 on the code.  Two matches with the previews "aaa" and "bbb" and a
    budget of six characters: both previews fit the running total, and the
    context returned has eight characters, the separator included. *)
Theorem context_exceeds_budget :
  build_context_from_matches
    [PDict [("id", PStr "a"); ("score", PInt 1); ("metadata", PDict [("preview", PStr "aaa")])];
     PDict [("id", PStr "b"); ("score", PInt 1); ("metadata", PDict [("preview", PStr "bbb")])]]
    6
  = Ok ("aaa" +:+ SEP +:+ "bbb") /\
  len_str ("aaa" +:+ SEP +:+ "bbb") = 8.
Proof. split; reflexivity. Qed.

Lemma context_within_budget_fails : ~ context_within_budget.
Proof.
  intros H.
  specialize (H [PDict [("metadata", PDict [("preview", PStr "aaa")])];
                 PDict [("metadata", PDict [("preview", PStr "bbb")])]]
                6 ("aaa" +:+ SEP +:+ "bbb") ltac:(lia) eq_refl).
  vm_compute in H. by apply H.
Qed.

(** ** Splitting at a separator *)

Section SplitSep.

Lemma all_chars_app (p : ascii -> bool) (a b : string) :
  all_chars p (a +:+ b) = all_chars p a && all_chars p b.
Proof.
  induction a as [|c a IH]; [done|]. rewrite app_cons. simpl.
  by rewrite IH, andb_assoc.
Qed.

Lemma strip_spaces (s : string) : all_chars is_space s = true -> strip s = EmptyString.
Proof.
  unfold strip. induction s as [|c s IH]; [done|]. simpl.
  intros [Hc Hs]%andb_prop. rewrite Hc. by apply IH.
Qed.

Lemma strip_empty_iff (s : string) :
  strip s = EmptyString <-> all_chars is_space s = true.
Proof.
  split; [|apply strip_spaces].
  intros H. by apply lstrip_spaces, rstrip_empty_spaces.
Qed.

Lemma rev_app_app (a b t : string) :
  String.rev_app a b +:+ t = String.rev_app a (b +:+ t).
Proof. revert b. induction a as [|c a IH]; intros b; [done|]. simpl. by rewrite IH. Qed.

Lemma rev_cons_app (c : ascii) (cur t : string) :
  String.rev (String c cur) +:+ t = String.rev cur +:+ String c t.
Proof. unfold String.rev. simpl. by rewrite !rev_app_app. Qed.

Lemma prefix_drop (sep s : string) :
  String.prefix sep s = true -> s = sep +:+ str_drop (String.length sep) s.
Proof.
  revert s. induction sep as [|a sep IH]; intros s.
  - by destruct s.
  - destruct s as [|b s]; [done|]. simpl.
    destruct (ascii_dec a b) as [->|]; [|done].
    intros H. rewrite app_cons. f_equal. by apply IH.
Qed.

Lemma length_str_drop (n : nat) (s : string) :
  String.length (str_drop n s) = (String.length s - n)%nat.
Proof. revert s. induction n as [|n IH]; intros [|c s]; simpl; try done. Qed.

Lemma split_sep_go_skip (sep : string) (skip : nat) (cur s : string) :
  split_sep_go sep skip cur s = split_sep_go sep 0 cur (str_drop skip s).
Proof.
  revert skip. induction s as [|c s IH]; intros [|skip]; try done.
  simpl. apply IH.
Qed.

Lemma split_sep_go_nonempty (sep : string) (skip : nat) (cur s : string) :
  split_sep_go sep skip cur s <> [].
Proof.
  revert skip cur. induction s as [|c s IH]; intros skip cur; [done|].
  cbn [split_sep_go]. destruct skip; [|apply IH].
  destruct (String.prefix sep (String c s)); [done|apply IH].
Qed.

Lemma join_cons_nonempty (sep x : string) (l : list string) :
  l <> [] -> join sep (x :: l) = x +:+ sep +:+ join sep l.
Proof. by destruct l. Qed.

(** Joining the pieces with the separator gives the string back. *)
Lemma join_split_sep_go (sep : string) (n : nat) (cur s : string) :
  sep <> EmptyString -> (String.length s <= n)%nat ->
  join sep (split_sep_go sep 0 cur s) = String.rev cur +:+ s.
Proof.
  intros Hsep. revert cur s. induction n as [|n IH]; intros cur s Hn.
  - destruct s; [|simpl in Hn; lia]. simpl. by rewrite app_empty_r.
  - destruct s as [|c s]; [simpl; by rewrite app_empty_r|].
    cbn [split_sep_go].
    destruct (String.prefix sep (String c s)) eqn:Hpre.
    + rewrite split_sep_go_skip.
      rewrite join_cons_nonempty by apply split_sep_go_nonempty.
      apply prefix_drop in Hpre.
      assert (Hdrop : str_drop (Nat.pred (String.length sep)) s
                      = str_drop (String.length sep) (String c s))
        by by destruct sep.
      rewrite Hdrop, IH.
      * unfold String.rev at 2. simpl. rewrite app_empty_l. by rewrite <- Hpre.
      * rewrite length_str_drop. simpl in Hn. destruct sep; [done|]. simpl. lia.
    + rewrite IH by (simpl in Hn; lia). apply rev_cons_app.
Qed.

Lemma join_split_sep (sep s : string) :
  sep <> EmptyString -> join sep (split_sep sep s) = s.
Proof. intros Hsep. unfold split_sep. by rewrite (join_split_sep_go sep (String.length s)). Qed.

Lemma all_space_join (sep : string) (ps : list string) :
  all_chars is_space sep = true ->
  Forall (fun p => all_chars is_space p = true) ps ->
  all_chars is_space (join sep ps) = true.
Proof.
  intros Hsep. induction ps as [|p ps IH]; [done|].
  intros [Hp Hps]%Forall_cons. destruct ps as [|q ps]; [done|].
  rewrite join_cons, !all_chars_app, Hp, Hsep. by apply IH.
Qed.

(** A context that is not blank has a segment that is not blank. *)
Lemma snippets_of_nonempty (context : string) :
  strip context <> EmptyString -> snippets_of context <> [].
Proof.
  intros Hctx Hnil. apply Hctx, strip_empty_iff.
  rewrite <- (join_split_sep SEP context) by done.
  apply all_space_join; [done|].
  unfold snippets_of in Hnil. apply fmap_nil_inv in Hnil.
  apply Forall_forall. intros p Hp. apply strip_empty_iff.
  destruct (strip p) eqn:E; [done|].
  assert (Hin : p ∈ filter (fun p => nonempty (strip p) = true) (split_sep SEP context)).
  { apply list_elem_of_filter. split; [|done]. by rewrite E. }
  rewrite Hnil in Hin. by apply not_elem_of_nil in Hin.
Qed.

Lemma snippets_of_trimmed (context : string) :
  Forall (fun p => p <> EmptyString /\ exists q, p = strip q) (snippets_of context).
Proof.
  unfold snippets_of. apply Forall_fmap, Forall_forall.
  intros q [Hq _]%list_elem_of_filter. simpl. split; [|by exists q].
  unfold nonempty in Hq. intros E. by rewrite E in Hq.
Qed.

(** ** The segments of a context put together from segments *)

Lemma prefix_SEP (c : ascii) (s : string) :
  String.prefix SEP (String c s) = Ascii.eqb c "010" && String.prefix LF s.
Proof.
  change SEP with (String "010" LF). cbn [String.prefix].
  destruct (ascii_dec "010" c) as [<-|Hc]; [reflexivity|].
  destruct (Ascii.eqb_spec c "010"); [by subst|done].
Qed.

Lemma prefix_LF (c : ascii) (s : string) :
  String.prefix LF (String c s) = Ascii.eqb c "010".
Proof.
  unfold LF. cbn [String.prefix].
  destruct (ascii_dec "010" c) as [<-|Hc]; [by destruct s|].
  destruct (Ascii.eqb_spec c "010"); [by subst|done].
Qed.

(** Below the first character of a segment there is a segment, and no
    separator starts at that character, whatever follows the segment. *)
Lemma segment_cons (c : ascii) (seg : string) :
  segment (String c seg) = true ->
  segment seg = true /\
  String.prefix SEP (String c seg) = false /\
  forall rest, String.prefix SEP (String c seg +:+ SEP +:+ rest) = false.
Proof.
  unfold segment. intros [Hsep Hend]%andb_prop.
  apply negb_true_iff in Hsep, Hend.
  cbn [str_contains] in Hsep. apply orb_false_elim in Hsep as [Hpre Hsep].
  rewrite Hsep. split; [|split; [done|]].
  - destruct seg as [|c' seg]; [done|].
    change (ends_with_lf (String c (String c' seg)))
      with (ends_with_lf (String c' seg)) in Hend.
    by rewrite Hend.
  - intros rest. rewrite app_cons, prefix_SEP. rewrite prefix_SEP in Hpre.
    destruct (Ascii.eqb c "010") eqn:Hc; [|done]. simpl in *.
    destruct seg as [|c' seg].
    + congruence.
    + rewrite app_cons, prefix_LF. by rewrite prefix_LF in Hpre.
Qed.

(** The last segment is read to its end. *)
Lemma split_sep_go_last (cur seg : string) :
  segment seg = true ->
  split_sep_go SEP 0 cur seg = [String.rev cur +:+ seg].
Proof.
  revert cur. induction seg as [|c seg IH]; intros cur Hseg.
  - simpl. by rewrite app_empty_r.
  - apply segment_cons in Hseg as (Hseg & Hpre & _).
    cbn [split_sep_go]. rewrite Hpre, (IH _ Hseg). by rewrite rev_cons_app.
Qed.

(** A segment ends at the separator that follows it. *)
Lemma split_sep_go_piece (cur seg rest : string) :
  segment seg = true ->
  split_sep_go SEP 0 cur (seg +:+ SEP +:+ rest) =
  (String.rev cur +:+ seg) :: split_sep_go SEP 0 EmptyString rest.
Proof.
  revert cur. induction seg as [|c seg IH]; intros cur Hseg.
  - rewrite app_empty_l, app_empty_r.
    change (SEP +:+ rest) with (String "010" (String "010" rest)).
    change SEP with (String "010" (String "010" EmptyString)).
    cbn [split_sep_go]. by destruct rest.
  - apply segment_cons in Hseg as (Hseg & _ & Hpre).
    specialize (Hpre rest). rewrite app_cons in Hpre |- *.
    cbn [split_sep_go]. rewrite Hpre, (IH _ Hseg). by rewrite rev_cons_app.
Qed.

(** Splitting finds the segments that were joined. *)
Lemma split_sep_join (segs : list string) :
  segs <> [] -> Forall (fun p => segment p = true) segs ->
  split_sep SEP (join SEP segs) = segs.
Proof.
  unfold split_sep. induction segs as [|seg segs IH]; [done|]. intros _ Hall.
  apply Forall_cons in Hall as [Hseg Hall].
  destruct segs as [|seg' segs].
  - simpl. by rewrite split_sep_go_last.
  - rewrite join_cons_nonempty by done.
    rewrite split_sep_go_piece by done. f_equal. by apply IH.
Qed.

(** What the fallback reads in a context put together from segments. *)
Lemma snippets_of_join (segs : list string) :
  Forall (fun p => segment p = true) segs ->
  snippets_of (join SEP segs) = trimmed_segments segs.
Proof.
  intros Hall. destruct segs as [|seg segs]; [done|].
  unfold snippets_of. by rewrite split_sep_join.
Qed.

End SplitSep.

(** ** The answer generator *)

Lemma fallback_blank (context note_error : string) :
  strip context = EmptyString ->
  ollama_fallback_extractive context note_error =
  UNAVAILABLE +:+ (if nonempty note_error then " (error: " +:+ note_error +:+ ")" else EmptyString).
Proof.
  intros H. unfold ollama_fallback_extractive. rewrite H. simpl. rewrite orb_true_r.
  destruct (nonempty note_error); [done|]. by rewrite app_empty_r.
Qed.

Lemma fallback_excerpts (context note_error : string) :
  strip context <> EmptyString ->
  ollama_fallback_extractive context note_error =
  FALLBACK_HEAD +:+ join SEP (take 3 (snippets_of context)) +:+ FALLBACK_TAIL +:+
  (if nonempty note_error then SEP +:+ "[debug: " +:+ note_error +:+ "]" else EmptyString).
Proof.
  intros H. unfold ollama_fallback_extractive, nonempty at 1 2.
  rewrite (eqb_empty_false _ H), (eqb_empty_false _ (strip_nonempty_arg _ H)). simpl.
  destruct (nonempty note_error).
  - by rewrite !app_assoc_str.
  - by rewrite app_empty_r.
Qed.

Section Generate.
Variable py_str : pyval -> string.
Variable str_of_exn : exn -> string.
Variable OLLAMA_MODEL : string.
Variable post : string -> string -> http_outcome.

Let try := ollama_try py_str OLLAMA_MODEL post.
Let generate := generate_answer_ollama py_str str_of_exn OLLAMA_MODEL post.

(** The ways in which the call fails. *)
Lemma ollama_try_failure_modes (prompt : string) :
  (forall detail, post OLLAMA_MODEL prompt = NetworkError detail ->
     try prompt = Raise (RequestException detail)) /\
  (forall status body, post OLLAMA_MODEL prompt = Response status body ->
     400 <= status < 600 -> try prompt = Raise (HTTPError status)) /\
  (forall status, post OLLAMA_MODEL prompt = Response status None ->
     ~ 400 <= status < 600 -> try prompt = Raise JSONDecodeError) /\
  (forall status d v, post OLLAMA_MODEL prompt = Response status (Some (PDict d)) ->
     ~ 400 <= status < 600 -> dict_lookup d "response" = Some v ->
     (forall s, v <> PStr s) -> try prompt = Raise AttributeError).
Proof.
  unfold try, ollama_try, raise_for_status. repeat split.
  - by intros detail ->.
  - intros status body -> Hs.
    destruct (Z.leb_spec 400 status), (Z.ltb_spec status 600); simpl; try done; lia.
  - intros status -> Hs.
    destruct (Z.leb_spec 400 status), (Z.ltb_spec status 600); simpl; try done; lia.
  - intros status d v -> Hs Hv Hnot.
    destruct (Z.leb_spec 400 status), (Z.ltb_spec status 600); simpl; try lia;
      rewrite Hv; destruct v; try done; by destruct (Hnot s).
Qed.

(** The replies that are answers. *)
Lemma ollama_try_answers (prompt : string) :
  (forall status d s, post OLLAMA_MODEL prompt = Response status (Some (PDict d)) ->
     ~ 400 <= status < 600 -> dict_lookup d "response" = Some (PStr s) ->
     try prompt = Ok (strip s)) /\
  (forall status j, post OLLAMA_MODEL prompt = Response status (Some j) ->
     ~ 400 <= status < 600 ->
     (forall d, j = PDict d -> dict_lookup d "response" = None) ->
     try prompt = Ok (py_str j)).
Proof.
  unfold try, ollama_try, raise_for_status. split.
  - intros status d s -> Hs Hv.
    destruct (Z.leb_spec 400 status), (Z.ltb_spec status 600); simpl; try lia;
      by rewrite Hv.
  - intros status j -> Hs Hj.
    destruct (Z.leb_spec 400 status), (Z.ltb_spec status 600); simpl; try lia;
      destruct j; try done; by rewrite (Hj _ eq_refl).
Qed.

(** C7, as amended.  [generate_answer_ollama] returns a string for every
    outcome of the call to the model.  The outcomes that raise inside the
    [try] give the fallback for the context and [str(e)]: a network error
    or a timeout, an error status (400 to 599, whatever the body), a body
    that is not JSON, a JSON object whose "response" is not a string.
    The other outcomes are answers: the trimmed string under "response",
    and, for JSON that is no object with the key "response", [str] of the
    body, which is not the fallback.
    The fallback, for any error detail: for a context that is empty or
    blank it is the message "unavailable", followed by the detail when
    there is one.  For any other context it is not empty: it is the fixed
    head, the first three (and at least one) non-blank segments of the
    context, trimmed and separated by blank lines, the fixed disclaimer,
    and the detail when there is one; when the context was put together
    from segments with blank lines between them, these are the first three
    of those segments that are not blank. *)
Theorem generate_answer_by_outcome (context question : string) :
  let reply := post OLLAMA_MODEL (build_prompt context question) in
  let answer := generate context question in
  let fallback (e : exn) := ollama_fallback_extractive context (str_of_exn e) in
  ((forall detail, reply = NetworkError detail ->
      answer = fallback (RequestException detail)) /\
   (forall status body, reply = Response status body -> 400 <= status < 600 ->
      answer = fallback (HTTPError status)) /\
   (forall status, reply = Response status None -> ~ 400 <= status < 600 ->
      answer = fallback JSONDecodeError) /\
   (forall status d v, reply = Response status (Some (PDict d)) -> ~ 400 <= status < 600 ->
      dict_lookup d "response" = Some v -> (forall s, v <> PStr s) ->
      answer = fallback AttributeError)) /\
  ((forall status d s, reply = Response status (Some (PDict d)) -> ~ 400 <= status < 600 ->
      dict_lookup d "response" = Some (PStr s) -> answer = strip s) /\
   (forall status j, reply = Response status (Some j) -> ~ 400 <= status < 600 ->
      (forall d, j = PDict d -> dict_lookup d "response" = None) ->
      answer = py_str j)) /\
  (forall note_error : string,
     (strip context = EmptyString ->
      ollama_fallback_extractive context note_error =
        UNAVAILABLE +:+
        (if nonempty note_error then " (error: " +:+ note_error +:+ ")" else EmptyString)) /\
     (strip context <> EmptyString ->
      ollama_fallback_extractive context note_error <> EmptyString /\
      exists top : list string,
        top = take 3 (snippets_of context) /\
        (1 <= length top <= 3)%nat /\
        Forall (fun p => p <> EmptyString /\ exists q, p = strip q) top /\
        (forall segs : list string,
           Forall (fun p => segment p = true) segs -> context = join SEP segs ->
           top = take 3 (trimmed_segments segs)) /\
        ollama_fallback_extractive context note_error =
          FALLBACK_HEAD +:+ join SEP top +:+ FALLBACK_TAIL +:+
          (if nonempty note_error
           then SEP +:+ "[debug: " +:+ note_error +:+ "]" else EmptyString))).
Proof.
  cbv zeta.
  pose proof (ollama_try_failure_modes (build_prompt context question))
    as (Hnet & Hstatus & Hjson & Hattr).
  pose proof (ollama_try_answers (build_prompt context question)) as (Hstr & Hother).
  unfold generate, generate_answer_ollama. fold try. split; [|split].
  - repeat split.
    + intros detail H. by rewrite (Hnet _ H).
    + intros status body H Hs. by rewrite (Hstatus _ _ H Hs).
    + intros status H Hs. by rewrite (Hjson _ H Hs).
    + intros status d v H Hs Hv Hnot. by rewrite (Hattr _ _ _ H Hs Hv Hnot).
  - split.
    + intros status d s H Hs Hv. by rewrite (Hstr _ _ _ H Hs Hv).
    + intros status j H Hs Hj. by rewrite (Hother _ _ H Hs Hj).
  - intros note_error. split; [apply fallback_blank|].
    intros Hctx. rewrite fallback_excerpts by done. split.
    { intros [H _]%app_eq_empty. vm_compute in H. discriminate H. }
    exists (take 3 (snippets_of context)). split; [done|].
    split; [|split; [|split; [|done]]].
    + rewrite length_take. pose proof (snippets_of_nonempty _ Hctx) as Hne.
      destruct (snippets_of context); [done|]. cbn [length]. lia.
    + apply Forall_take, snippets_of_trimmed.
    + intros segs Hall ->. by rewrite snippets_of_join.
Qed.
End Generate.

(** The server answers 503, with three segments in the context, the second
    one blank. *)
Lemma generate_answer_by_outcome_witness :
  generate_answer_ollama (fun _ => EmptyString) (fun _ => "503 Server Error") "llama3.1:8b"
    (fun _ _ => Response 503 None)
    (join SEP ["Drink fluids."; " "; "Rest."]) "What helps a fever?"
  = FALLBACK_HEAD +:+ "Drink fluids." +:+ SEP +:+ "Rest." +:+ FALLBACK_TAIL +:+
    SEP +:+ "[debug: 503 Server Error]".
Proof.
  destruct (generate_answer_by_outcome
              (fun _ => EmptyString) (fun _ => "503 Server Error") "llama3.1:8b"
              (fun _ _ => Response 503 None)
              (join SEP ["Drink fluids."; " "; "Rest."]) "What helps a fever?")
    as ((_ & Hstatus & _ & _) & _ & Hfallback).
  rewrite (Hstatus 503 None eq_refl ltac:(lia)).
  destruct (proj2 (Hfallback "503 Server Error"))
    as (_ & top & _ & _ & _ & Hsegs & ->); [discriminate|].
  rewrite (Hsegs ["Drink fluids."; " "; "Rest."]); [reflexivity| |reflexivity].
  repeat constructor.
Defined.

(** The property as stated fails: a reply with status 200 and the JSON
    body [{"done": true}] has no "response", and the answer is [str] of
    that body, which is no fallback for a context with an excerpt. *)
Lemma fallback_on_any_failure_fails : ~ fallback_on_any_failure.
Proof.
  intros H.
  destruct (H (fun _ => "{'done': True}") (fun _ => EmptyString) "llama3.1:8b"
              (fun _ _ => Response 200 (Some (PDict [("done", PBool true)])))
              "Rest." "What helps a fever?" eq_refl) as [note Hnote].
  rewrite fallback_excerpts in Hnote by done.
  vm_compute in Hnote. discriminate Hnote.
Qed.

End AppFacts.

(* ===================================================================== *)
(** * More on the chunker: what every run keeps *)
(* ===================================================================== *)

Module ChunkerMore.
Import Chunker ChunkerFacts ChunkFile.

(** ** Decimal numerals and chunk names *)

Lemma str_of_Z_inj (a b : Z) : str_of_Z a = str_of_Z b -> a = b.
Proof.
  unfold str_of_Z. intros H. apply DecimalZ.to_int_inj.
  assert (Hnil : forall n, Z.to_int n <> Decimal.Pos Decimal.Nil /\
                           Z.to_int n <> Decimal.Neg Decimal.Nil).
  { intros [|p|p]; simpl; split; try done;
      intros [= E]; by apply DecimalPos.Unsigned.to_uint_nonnil in E. }
  destruct (Hnil a) as [Ha1 Ha2], (Hnil b) as [Hb1 Hb2].
  pose proof (NilZero.isi _ Ha1 Ha2) as Ea. pose proof (NilZero.isi _ Hb1 Hb2) as Eb.
  rewrite H in Ea. rewrite Ea in Eb. by injection Eb.
Qed.

Lemma string_of_uint_no_underscore (d : Decimal.uint) :
  all_chars not_underscore (NilEmpty.string_of_uint d) = true.
Proof. induction d; simpl; by rewrite ?IHd. Qed.

Lemma str_of_Z_no_underscore (n : Z) : all_chars not_underscore (str_of_Z n) = true.
Proof.
  unfold str_of_Z. destruct (Z.to_int n) as [d|d]; simpl.
  - destruct d; try done; simpl; apply string_of_uint_no_underscore.
  - destruct d; try done; simpl; apply string_of_uint_no_underscore.
Qed.

(** Two strings free of "_" that are followed by "_" end at the same place. *)
Lemma underscore_cut (a a' b b' : string) :
  all_chars not_underscore a = true -> all_chars not_underscore a' = true ->
  a +:+ String "_" b = a' +:+ String "_" b' -> a = a' /\ b = b'.
Proof.
  revert a'. induction a as [|c a IH]; intros [|c' a'] Ha Ha'.
  - rewrite !app_empty_l. by intros [= ->].
  - rewrite app_empty_l, app_cons. intros [= <- _]. simpl in Ha'. done.
  - rewrite app_empty_l, app_cons. intros [= -> _]. simpl in Ha. done.
  - rewrite !app_cons. intros [= -> H]. simpl in Ha, Ha'.
    apply andb_prop in Ha as [_ Ha]. apply andb_prop in Ha' as [_ Ha'].
    destruct (IH a' Ha Ha' H) as [-> ->]. done.
Qed.

Lemma chunk_name_inj (stem : string) (p p' c c' : Z) :
  chunk_name stem p c = chunk_name stem p' c' -> p = p' /\ c = c'.
Proof.
  unfold chunk_name. intros H. apply String.app_inj in H.
  change ("_p" +:+ ?x) with (String "_" (String "p" x)) in H.
  injection H as H.
  change ("_c" +:+ ?x) with (String "_" (String "c" x)) in H.
  apply underscore_cut in H as [Hp Hc]; try apply str_of_Z_no_underscore.
  injection Hc as Hc. split; by apply str_of_Z_inj.
Qed.

(** ** [strip] is idempotent *)

Lemma rstrip_idem (s : string) : rstrip (rstrip s) = rstrip s.
Proof.
  induction s as [|c s IH]; [done|]. simpl.
  destruct (rstrip s) as [|c' r] eqn:E.
  - destruct (is_space c) eqn:Hc; [done|]. simpl. by rewrite Hc.
  - simpl in *. by rewrite IH.
Qed.

Lemma rstrip_head (c : ascii) (s : string) :
  is_space c = false -> exists r, rstrip (String c s) = String c r.
Proof. intros Hc. simpl. destruct (rstrip s); rewrite ?Hc; eauto. Qed.

Lemma lstrip_head (s : string) :
  lstrip s = EmptyString \/ exists c r, lstrip s = String c r /\ is_space c = false.
Proof.
  induction s as [|c s IH]; [by left|]. simpl.
  destruct (is_space c) eqn:Hc; [done|]. right. eauto.
Qed.

Lemma strip_idem (s : string) : strip (strip s) = strip s.
Proof.
  unfold strip. destruct (lstrip_head s) as [->|(c & r & -> & Hc)]; [done|].
  destruct (rstrip_head c r Hc) as [r' Hr]. rewrite Hr. cbn [lstrip]. rewrite Hc.
  rewrite <- Hr. apply rstrip_idem.
Qed.

(** ** The loop keeps what its step keeps *)

Section LoopInvariant.
Variables (stem name : string) (page_no : Z).
Variables (words : list string) (chunk_size overlap : Z).
Variable Inv : loop_state -> Prop.
Hypothesis Inv_step :
  forall st, Inv st -> Inv (loop_step stem name page_no words chunk_size overlap st).

Lemma chunk_loop_invariant (fuel : nat) (st : loop_state) (chunks : list chunk) :
  Inv st ->
  chunk_loop stem name page_no words chunk_size overlap fuel st = Some chunks ->
  exists st', Inv st' /\ out st' = chunks.
Proof.
  revert st. induction fuel as [|fuel IH]; intros st Hst; simpl.
  - destruct (loop_cond words st); [done|]. intros [= <-]. eauto.
  - destruct (loop_cond words st); [|intros [= <-]; eauto].
    apply IH, Inv_step, Hst.
Qed.
End LoopInvariant.

(** More fuel does not change a finished run. *)
Lemma chunk_loop_more_fuel (stem name : string) (page_no : Z) (words : list string)
    (chunk_size overlap : Z) (fuel fuel' : nat) (st : loop_state) (chunks : list chunk) :
  chunk_loop stem name page_no words chunk_size overlap fuel st = Some chunks ->
  (fuel <= fuel')%nat ->
  chunk_loop stem name page_no words chunk_size overlap fuel' st = Some chunks.
Proof.
  revert fuel' st. induction fuel as [|fuel IH]; intros fuel' st; simpl.
  - destruct fuel'; simpl; by destruct (loop_cond words st).
  - destruct fuel' as [|fuel']; [lia|]. simpl.
    destruct (loop_cond words st); [|done]. intros H ?. apply IH; [done|lia].
Qed.

(** What holds of the chunks of one page, whatever the sizes. *)
Lemma chunk_page_wellformed (fuel : nat) (stem name : string) (page_no : Z)
    (page_text : string) (chunk_size overlap : Z) (chunks : list chunk) :
  chunk_page fuel stem name page_no page_text chunk_size overlap = Some chunks ->
  Forall (fun c => text c <> EmptyString /\ strip (text c) = text c /\
                   source c = name /\ page c = page_no /\ 0 <= chunk_id c /\
                   id c = chunk_name stem page_no (chunk_id c)) chunks /\
  NoDup (map chunk_id chunks).
Proof.
  unfold chunk_page. destruct (String.eqb (strip page_text) EmptyString).
  { intros [= <-]. split; constructor. }
  intros Hrun.
  apply (chunk_loop_invariant stem name page_no (split page_text) chunk_size overlap
           (fun st => 0 <= next_id st /\
                      Forall (fun c => (text c <> EmptyString /\ strip (text c) = text c /\
                                        source c = name /\ page c = page_no /\
                                        0 <= chunk_id c /\
                                        id c = chunk_name stem page_no (chunk_id c)) /\
                                       chunk_id c < next_id st) (out st) /\
                      NoDup (map chunk_id (out st)))) in Hrun.
  - destruct Hrun as (st' & (_ & Hall & Hnd) & <-). split; [|done].
    eapply Forall_impl; [exact Hall|]. by intros c [? _].
  - intros st (Hid & Hall & Hnd). unfold loop_step. simpl.
    split; [lia|].
    assert (Hall' : Forall (fun c => (text c <> EmptyString /\ strip (text c) = text c /\
                                      source c = name /\ page c = page_no /\
                                      0 <= chunk_id c /\
                                      id c = chunk_name stem page_no (chunk_id c)) /\
                                     chunk_id c < next_id st + 1) (out st)).
    { eapply Forall_impl; [exact Hall|]. intros c [? ?]. split; [done|lia]. }
    destruct (String.eqb (window_text (split page_text) chunk_size (pos st)) EmptyString) eqn:E;
      [done|].
    split.
    + apply Forall_app. split; [done|]. constructor; [|done]. simpl.
      split; [|lia]. split; [by intros H; rewrite H in E|].
      split; [apply strip_idem|done].
    + rewrite map_app. simpl. apply NoDup_app. split; [done|]. split.
      * intros x Hx Hx'. apply list_elem_of_singleton in Hx'. subst x.
        apply list_elem_of_fmap in Hx as (c & Hc & Hin).
        rewrite Forall_forall in Hall. destruct (Hall c Hin) as [_ Hlt]. lia.
      * apply NoDup_singleton.
  - simpl. split; [lia|]. split; constructor.
Qed.

Lemma extract_pages_wellformed (fuel : nat) (stem name : string) (i : Z)
    (pages : list pdf_page) (chunk_size overlap : Z) (chunks : list chunk) :
  extract_pages fuel stem name i pages chunk_size overlap = Some chunks ->
  Forall (fun c => text c <> EmptyString /\ strip (text c) = text c /\
                   source c = name /\ i < page c <= i + Z.of_nat (length pages) /\
                   0 <= chunk_id c /\
                   id c = chunk_name stem (page c) (chunk_id c)) chunks /\
  NoDup (map (fun c => (page c, chunk_id c)) chunks).
Proof.
  revert i chunks. induction pages as [|p pages IH]; intros i chunks; simpl.
  { intros [= <-]. split; constructor. }
  destruct (chunk_page fuel stem name (i + 1) (page_text p) chunk_size overlap)
    as [cs|] eqn:Hp; [|done]. simpl.
  destruct (extract_pages fuel stem name (i + 1) pages chunk_size overlap)
    as [more|] eqn:Hrest; [|done]. simpl. intros [= <-].
  apply chunk_page_wellformed in Hp as [Hcs Hnd].
  destruct (IH _ _ Hrest) as [Hmore Hndm].
  split.
  - apply Forall_app. split.
    + eapply Forall_impl; [exact Hcs|]. intros c (? & ? & ? & Hpg & ? & Hid).
      rewrite <- Hpg in Hid. repeat split; try done; lia.
    + eapply Forall_impl; [exact Hmore|]. intros c (? & ? & ? & Hpg & ? & Hid).
      repeat split; try done; lia.
  - rewrite map_app. apply NoDup_app. split; [|split; [|done]].
    + clear Hmore Hndm Hrest IH. induction cs as [|c cs IHcs]; [constructor|].
      apply Forall_cons in Hcs as [(_ & _ & _ & Hpg & _) Hcs].
      simpl in Hnd. apply NoDup_cons in Hnd as [Hnotin Hnd].
      simpl. apply NoDup_cons. split; [|by apply IHcs].
      intros Hin. apply Hnotin. apply list_elem_of_fmap in Hin as (c' & [= Hp' Hc'] & Hin).
      apply list_elem_of_fmap. by exists c'.
    + intros x Hx Hx'.
      apply list_elem_of_fmap in Hx as (c & -> & Hc).
      apply list_elem_of_fmap in Hx' as (c' & [= Hp' Hc'] & Hin').
      rewrite Forall_forall in Hcs, Hmore.
      destruct (Hcs c Hc) as (_ & _ & _ & Hpg & _).
      destruct (Hmore c' Hin') as (_ & _ & _ & Hpg' & _). lia.
Qed.

(** X1.  Every chunk of a document has a text that is not empty and is
    trimmed, the name of the document as source, a page number between 1
    and the number of pages, a chunk id from 0 on, and the id built from
    the stem, the page and the chunk id.  This holds for every choice of
    [chunk_size] and [overlap]. *)
Theorem extracted_chunks_wellformed (fuel : nat) (stem name : string)
    (pages : list pdf_page) (chunk_size overlap : Z) (chunks : list chunk) :
  extract_chunks_from_pdf_mupdf fuel stem name pages chunk_size overlap = Some chunks ->
  Forall (fun c => text c <> EmptyString /\ strip (text c) = text c /\
                   source c = name /\ 1 <= page c <= Z.of_nat (length pages) /\
                   0 <= chunk_id c /\
                   id c = chunk_name stem (page c) (chunk_id c)) chunks.
Proof.
  intros H. apply extract_pages_wellformed in H as [H _].
  eapply Forall_impl; [exact H|]. intros c (? & ? & ? & ? & ? & ?).
  repeat split; try done; lia.
Qed.

Lemma extracted_chunks_wellformed_witness :
  Forall (fun c => text c <> EmptyString /\ strip (text c) = text c /\
                   source c = "doc.pdf" /\ 1 <= page c <= 2 /\
                   0 <= chunk_id c /\
                   id c = chunk_name "doc" (page c) (chunk_id c))
    [mk_chunk "doc_p1_c0" "doc.pdf" 1 0 "feverish patient";
     mk_chunk "doc_p2_c0" "doc.pdf" 2 0 "take two tablets daily"].
Proof.
  apply (extracted_chunks_wellformed 5 "doc" "doc.pdf"
           [mk_page (Some "0123456789") (OcrText "feverish patient");
            mk_page (Some "take two tablets daily") OcrNoImage] 300 50).
  reflexivity.
Defined.

(** X2.  The ids of the chunks of a document are pairwise distinct, for every
    choice of [chunk_size] and [overlap]. *)
Theorem chunk_ids_unique (fuel : nat) (stem name : string)
    (pages : list pdf_page) (chunk_size overlap : Z) (chunks : list chunk) :
  extract_chunks_from_pdf_mupdf fuel stem name pages chunk_size overlap = Some chunks ->
  NoDup (map id chunks).
Proof.
  intros H. apply extract_pages_wellformed in H as [Hall Hnd].
  induction chunks as [|c cs IH]; [constructor|].
  apply Forall_cons in Hall as [(_ & _ & _ & _ & _ & Hid) Hall].
  simpl in Hnd. apply NoDup_cons in Hnd as [Hnotin Hnd].
  simpl. apply NoDup_cons. split; [|by apply IH].
  intros Hin. apply Hnotin.
  apply list_elem_of_fmap in Hin as (c' & Heq & Hin).
  rewrite Forall_forall in Hall. destruct (Hall c' Hin) as (_ & _ & _ & _ & _ & Hid').
  rewrite Hid, Hid' in Heq. apply chunk_name_inj in Heq as [Hp Hc].
  apply list_elem_of_fmap. exists c'. split; [by rewrite Hp, Hc|done].
Qed.

Lemma chunk_ids_unique_witness :
  NoDup (map id [mk_chunk "doc_p1_c0" "doc.pdf" 1 0 "a b";
                 mk_chunk "doc_p1_c1" "doc.pdf" 1 1 "b c";
                 mk_chunk "doc_p1_c2" "doc.pdf" 1 2 "c";
                 mk_chunk "doc_p2_c0" "doc.pdf" 2 0 "d"]).
Proof.
  apply (chunk_ids_unique 5 "doc" "doc.pdf"
           [mk_page (Some "a b c") OcrNoImage; mk_page None (OcrText "d")] 2 1).
  reflexivity.
Defined.

(** ** A page under [0 <= overlap < chunk_size] *)

Lemma windows_lookup (stem name : string) (page_no : Z) (words : list string)
    (chunk_size overlap : Z) (n k : nat) (i cid : Z) :
  (k < n)%nat ->
  windows stem name page_no words chunk_size overlap n i cid !! k =
  Some (chunk_at stem name page_no words chunk_size
          (i + Z.of_nat k * (chunk_size - overlap)) (cid + Z.of_nat k)).
Proof.
  intros Hk.
  destruct (lookup_lt_is_Some_2
              (windows stem name page_no words chunk_size overlap n i cid) k) as [c Hc].
  { by rewrite length_windows. }
  rewrite Hc. by apply lookup_windows in Hc as [_ ->].
Qed.

(** The chunks of a page with words, with fuel for every word. *)
Lemma chunk_page_gives_windows (fuel : nat) (stem name : string) (page_no : Z)
    (page_text : string) (chunk_size overlap : Z) :
  0 <= overlap < chunk_size ->
  split page_text <> [] ->
  (length (split page_text) <= fuel)%nat ->
  chunk_page fuel stem name page_no page_text chunk_size overlap =
  Some (windows stem name page_no (split page_text) chunk_size overlap
          (passes (split page_text) chunk_size overlap 0) 0 0).
Proof.
  intros Hov Hne Hfuel. unfold chunk_page.
  destruct (String.eqb (strip page_text) EmptyString) eqn:E.
  { by apply eqb_empty_true, strip_empty_split in E. }
  rewrite (chunk_loop_windows stem name page_no (split page_text) chunk_size overlap
             (split_words page_text) Hov); [done|simpl; lia|].
  simpl. etrans; [apply passes_le_words; [done|]|done].
  destruct (split page_text); [done|simpl; lia].
Qed.

(** X3.  No word of a page is lost: under [0 <= overlap < chunk_size] and
    with fuel for every word, the page is cut into chunks, and the word at
    index [j] of the page is the word at index [j mod (S-O)] of chunk
    [j / (S-O)]. *)
Theorem chunks_cover_every_word (fuel : nat) (stem name : string) (page_no : Z)
    (page_text : string) (chunk_size overlap : Z) (j : nat) (w : string) :
  0 <= overlap < chunk_size ->
  (length (split page_text) <= fuel)%nat ->
  split page_text !! j = Some w ->
  exists (chunks : list chunk) (c : chunk),
    chunk_page fuel stem name page_no page_text chunk_size overlap = Some chunks /\
    chunks !! (j / Z.to_nat (chunk_size - overlap))%nat = Some c /\
    chunk_words c !! (j mod Z.to_nat (chunk_size - overlap))%nat = Some w.
Proof.
  intros Hov Hfuel Hj.
  set (words := split page_text) in *.
  set (d := Z.to_nat (chunk_size - overlap)).
  assert (Hd : (0 < d)%nat) by (unfold d; lia).
  pose proof (lookup_lt_Some _ _ _ Hj) as HjN.
  assert (Hne : words <> []) by (intros E; rewrite E in HjN; simpl in HjN; lia).
  rewrite (chunk_page_gives_windows _ _ _ _ _ _ _ Hov Hne Hfuel). fold words.
  pose proof (Nat.div_mod_eq j d) as Hdiv.
  pose proof (Nat.mod_upper_bound j d ltac:(lia)) as Hmod.
  set (k := (j / d)%nat) in *. set (r := (j mod d)%nat) in *.
  assert (Hk : (k < passes words chunk_size overlap 0)%nat).
  { unfold passes.
    assert (Z.of_nat k + 1 <= (Z.of_nat (length words) - 0 + (chunk_size - overlap) - 1)
                              / (chunk_size - overlap)); [|lia].
    apply Z.div_le_lower_bound; [lia|]. unfold d in *. nia. }
  eexists _, _. split; [done|]. split; [by apply windows_lookup|].
  unfold chunk_words, chunk_at. simpl.
  rewrite split_join by apply window_words_word, split_words.
  unfold window_words. rewrite lookup_take_lt by (unfold d in *; lia).
  rewrite lookup_drop, <- Hj. f_equal. unfold d in *. nia.
Qed.

(** The page "a b c d e" with windows of four words and an advance of two:
    the fifth word is the first word of the third chunk. *)
Lemma chunks_cover_every_word_witness :
  exists (chunks : list chunk) (c : chunk),
    chunk_page 5 "doc" "doc.pdf" 1 "a b c d e" 4 2 = Some chunks /\
    chunks !! (4 / Z.to_nat (4 - 2))%nat = Some c /\
    chunk_words c !! (4 mod Z.to_nat (4 - 2))%nat = Some "e".
Proof.
  apply (chunks_cover_every_word 5 "doc" "doc.pdf" 1 "a b c d e" 4 2 4 "e");
    [lia|vm_compute; lia|reflexivity].
Defined.

(** X4.  A page of at most [chunk_size - overlap] words gives exactly one
    chunk, with chunk id 0, whose text is the words of the page separated
    by single spaces. *)
Theorem short_page_single_chunk (fuel : nat) (stem name : string) (page_no : Z)
    (page_text : string) (chunk_size overlap : Z) :
  0 <= overlap ->
  (1 <= length (split page_text))%nat ->
  Z.of_nat (length (split page_text)) <= chunk_size - overlap ->
  (1 <= fuel)%nat ->
  chunk_page fuel stem name page_no page_text chunk_size overlap =
  Some [mk_chunk (chunk_name stem page_no 0) name page_no 0 (join " " (split page_text))].
Proof.
  intros Hov HN Hfit Hfuel.
  set (words := split page_text) in *.
  assert (Hov' : 0 <= overlap < chunk_size) by lia.
  assert (Hpasses : passes words chunk_size overlap 0 = 1%nat).
  { unfold passes.
    assert ((Z.of_nat (length words) - 0 + (chunk_size - overlap) - 1)
            / (chunk_size - overlap) = 1); [|lia].
    symmetry. apply Z.div_unique_pos with (r := Z.of_nat (length words) - 1); lia. }
  unfold chunk_page.
  destruct (String.eqb (strip page_text) EmptyString) eqn:E.
  { apply eqb_empty_true, strip_empty_split in E. fold words in E.
    rewrite E in HN. simpl in HN. lia. }
  fold words.
  rewrite (chunk_loop_windows stem name page_no words chunk_size overlap
             (split_words page_text) Hov'); simpl pos; [|lia|lia].
  rewrite Hpasses. simpl. unfold chunk_at, window_words.
  change (Z.to_nat 0) with 0%nat. by rewrite drop_0, take_ge by lia.
Qed.

Lemma short_page_single_chunk_witness :
  chunk_page 1 "doc" "doc.pdf" 2 "  take  two tablets   daily " 300 50
  = Some [mk_chunk (chunk_name "doc" 2 0) "doc.pdf" 2 0
            (join " " (split "  take  two tablets   daily "))].
Proof.
  apply short_page_single_chunk; [lia|vm_compute; lia|vm_compute; discriminate|lia].
Defined.

(** ** The pages of a document *)

Lemma extract_pages_app (fuel : nat) (stem name : string) (i : Z)
    (before after : list pdf_page) (chunk_size overlap : Z) :
  extract_pages fuel stem name i (before ++ after) chunk_size overlap =
  (cs ← extract_pages fuel stem name i before chunk_size overlap;
   more ← extract_pages fuel stem name (i + Z.of_nat (length before)) after chunk_size overlap;
   Some (cs ++ more)).
Proof.
  revert i. induction before as [|p before IH]; intros i.
  - simpl. replace (i + Z.of_nat 0) with i by lia.
    by destruct (extract_pages fuel stem name i after chunk_size overlap).
  - cbn [app extract_pages].
    destruct (chunk_page fuel stem name (i + 1) (page_text p) chunk_size overlap) as [cs|];
      [|done].
    cbn [mbind option_bind]. rewrite IH.
    replace (i + 1 + Z.of_nat (length before)) with (i + Z.of_nat (length (p :: before)))
      by (simpl length; lia).
    destruct (extract_pages fuel stem name (i + 1) before chunk_size overlap) as [cs'|];
      [|done].
    cbn [mbind option_bind].
    destruct (extract_pages fuel stem name (i + Z.of_nat (length (p :: before))) after
                chunk_size overlap); [|done].
    cbn [mbind option_bind]. by rewrite app_assoc.
Qed.

(** X5.  A page with fewer than 60 characters of native text whose OCR raises,
    or reads nothing but white space, is passed over: the chunks of the
    document are those of the pages before it and those of the pages
    after it, which keep their page numbers. *)
Theorem unreadable_page_skipped (fuel : nat) (stem name : string)
    (before after : list pdf_page) (p : pdf_page) (chunk_size overlap : Z) :
  len_str (strip (default EmptyString (native_text p))) < OCR_THRESHOLD_CHARS ->
  ocr p = OcrRaises \/ (exists t, ocr p = OcrText t /\ strip t = EmptyString) ->
  extract_chunks_from_pdf_mupdf fuel stem name (before ++ p :: after) chunk_size overlap =
  (cs ← extract_pages fuel stem name 0 before chunk_size overlap;
   more ← extract_pages fuel stem name (Z.of_nat (length before) + 1) after chunk_size overlap;
   Some (cs ++ more)).
Proof.
  intros Hshort Hocr. unfold extract_chunks_from_pdf_mupdf. rewrite extract_pages_app.
  destruct (extract_pages fuel stem name 0 before chunk_size overlap) as [cs|]; [|done].
  cbn [mbind option_bind extract_pages].
  assert (Hblank : strip (page_text p) = EmptyString).
  { unfold page_text. destruct (Z.ltb_spec (len_str (strip (default EmptyString (native_text p))))
                                  OCR_THRESHOLD_CHARS); [|lia].
    destruct Hocr as [->|(t & -> & Ht)]; done. }
  unfold chunk_page at 1. rewrite Hblank. simpl String.eqb. cbn [mbind option_bind].
  replace (0 + Z.of_nat (length before) + 1) with (Z.of_nat (length before) + 1) by lia.
  by destruct (extract_pages fuel stem name (Z.of_nat (length before) + 1) after
                 chunk_size overlap).
Qed.

Lemma unreadable_page_skipped_witness :
  extract_chunks_from_pdf_mupdf 5 "doc" "doc.pdf"
    ([mk_page None (OcrText "first page")] ++
      mk_page (Some "7") OcrRaises :: [mk_page None (OcrText "third page")]) 300 50
  = Some [mk_chunk "doc_p1_c0" "doc.pdf" 1 0 "first page";
          mk_chunk "doc_p3_c0" "doc.pdf" 3 0 "third page"].
Proof.
  rewrite unreadable_page_skipped; [reflexivity|vm_compute; reflexivity|by left].
Defined.

End ChunkerMore.

(* ===================================================================== *)
(** * More on the embedder: the bound on retries, and [main] *)
(* ===================================================================== *)

Module EmbedderMore.
Import Embedder EmbedderFacts.

Lemma backoffs_succ (n : nat) : backoffs (S n) = backoffs n ++ [2 ^ Z.of_nat (S n)].
Proof. unfold backoffs. by rewrite seq_S, map_app. Qed.

Lemma sum_backoffs (n : nat) : foldr Z.add 0 (backoffs n) = 2 ^ Z.of_nat (S n) - 2.
Proof.
  induction n as [|n IH]; [done|].
  rewrite backoffs_succ, foldr_app. simpl foldr.
  assert (Hshift : forall l a, foldr Z.add a l = foldr Z.add 0 l + a).
  { induction l as [|x l IHl]; intros a; simpl; [lia|]. rewrite IHl. lia. }
  rewrite Hshift, IH.
  replace (Z.of_nat (S (S n))) with (Z.of_nat (S n) + 1) by lia.
  rewrite Z.pow_add_r by lia. lia.
Qed.

(** From attempt [a] on, with the pauses of [a] failures behind it, the
    loop ends after at most [max (a+1) MAX_RETRIES] attempts, with one
    pause per failed attempt. *)
Lemma groq_loop_bounded (MAX_RETRIES : Z) (post : Z -> http_outcome)
    (fuel a : nat) (r : groq_run) :
  groq_loop MAX_RETRIES post fuel (Z.of_nat a) (backoffs a) = Some r ->
  Z.of_nat a + 1 <= attempts r <= Z.max (Z.of_nat a + 1) MAX_RETRIES /\
  sleeps r = backoffs (Z.to_nat (attempts r - 1)).
Proof.
  revert a. induction fuel as [|fuel IH]; intros a; [done|]. simpl.
  assert (Hend : forall o, Some (mk_run o (Z.of_nat a + 1) (backoffs a)) = Some r ->
            Z.of_nat a + 1 <= attempts r <= Z.max (Z.of_nat a + 1) MAX_RETRIES /\
            sleeps r = backoffs (Z.to_nat (attempts r - 1))).
  { intros o [= <-]. simpl. split; [lia|]. f_equal. lia. }
  assert (Hrec : (Z.of_nat a + 1 >=? MAX_RETRIES) = false ->
            groq_loop MAX_RETRIES post fuel (Z.of_nat a + 1)
              (backoffs a ++ [2 ^ (Z.of_nat a + 1)]) = Some r ->
            Z.of_nat a + 1 <= attempts r <= Z.max (Z.of_nat a + 1) MAX_RETRIES /\
            sleeps r = backoffs (Z.to_nat (attempts r - 1))).
  { intros Hlt Hrun. destruct (Z.geb_spec (Z.of_nat a + 1) MAX_RETRIES); [done|].
    replace (Z.of_nat a + 1) with (Z.of_nat (S a)) in Hrun by lia.
    rewrite <- backoffs_succ in Hrun. apply IH in Hrun as [Hatt Hsl].
    split; [lia|done]. }
  destruct (groq_attempt (post (Z.of_nat a + 1))) as [emb|e]; [apply Hend|].
  destruct e;
    try (destruct (Z.of_nat a + 1 >=? MAX_RETRIES) eqn:E; [apply Hend|by apply Hrec]).
  destruct (negb (status =? 0) && ((400 <=? status) && (status <? 500))); [apply Hend|].
  destruct (Z.of_nat a + 1 >=? MAX_RETRIES) eqn:E; [apply Hend|by apply Hrec].
Qed.

(** X6.  Whatever the provider does, a call sends at least one request and at
    most [MAX_RETRIES] (one when [MAX_RETRIES] is below one); it pauses
    once per failed attempt but the last, for 2, 4, ... seconds, which add
    up to [2^attempts - 2]; and it ends, given fuel for that many passes. *)
Theorem groq_bounded_attempts (MAX_RETRIES : Z) (post : Z -> http_outcome) (fuel : nat) :
  (Z.max 1 MAX_RETRIES <= Z.of_nat fuel ->
   is_Some (groq_embed_one MAX_RETRIES post fuel)) /\
  (forall r : groq_run,
     groq_embed_one MAX_RETRIES post fuel = Some r ->
     1 <= attempts r <= Z.max 1 MAX_RETRIES /\
     sleeps r = backoffs (Z.to_nat (attempts r - 1)) /\
     foldr Z.add 0 (sleeps r) = 2 ^ attempts r - 2).
Proof.
  split.
  - intros Hfuel. apply groq_loop_total; lia.
  - intros r Hrun. unfold groq_embed_one in Hrun.
    apply (groq_loop_bounded MAX_RETRIES post fuel 0) in Hrun as [Hatt Hsl].
    simpl in Hatt. split; [lia|]. split; [done|].
    rewrite Hsl, sum_backoffs.
    by replace (Z.of_nat (S (Z.to_nat (attempts r - 1)))) with (attempts r) by lia.
Qed.

(** A provider that always answers 503, with five retries allowed. *)
Lemma groq_bounded_attempts_witness :
  is_Some (groq_embed_one 5 (fun _ => Response 503 None) 5) /\
  (1 <= attempts (mk_run (Raise (HTTPError 503)) 5 [2; 4; 8; 16]) <= Z.max 1 5 /\
   sleeps (mk_run (Raise (HTTPError 503)) 5 [2; 4; 8; 16]) =
     backoffs (Z.to_nat (attempts (mk_run (Raise (HTTPError 503)) 5 [2; 4; 8; 16]) - 1)) /\
   foldr Z.add 0 (sleeps (mk_run (Raise (HTTPError 503)) 5 [2; 4; 8; 16])) =
     2 ^ attempts (mk_run (Raise (HTTPError 503)) 5 [2; 4; 8; 16]) - 2).
Proof.
  split.
  - apply (proj1 (groq_bounded_attempts 5 (fun _ => Response 503 None) 5)). lia.
  - apply (proj2 (groq_bounded_attempts 5 (fun _ => Response 503 None) 5)). reflexivity.
Defined.

End EmbedderMore.

Module EmbedMainFacts.
Import EmbedMain.

Section Records.
Variable embed : pyval -> result pyval.
Variable BATCH_SLEEP : Q.
Variable time_sleep : Q -> result unit.

Let loop := embed_chunks embed BATCH_SLEEP time_sleep.

(** The lines written are the records of the first chunks, in order,
    whatever the pause does; the run ends well when every chunk has its
    record, and otherwise with the exception of the first chunk that
    fails, or with that of the pause. *)
Lemma embed_chunks_spec (chunks : list pyval) (i : Z) (written : list pyval) :
  exists recs : list pyval,
    (loop i chunks written).1 = written ++ recs /\
    (forall (k : nat) (rec : pyval), recs !! k = Some rec ->
       exists c, chunks !! k = Some c /\ embed_record embed (i + Z.of_nat k) c = Ok rec) /\
    match (loop i chunks written).2 with
    | Ok _ => length recs = length chunks
    | Raise e =>
        (exists c, chunks !! length recs = Some c /\
                   embed_record embed (i + Z.of_nat (length recs)) c = Raise e) \/
        (time_sleep BATCH_SLEEP = Raise e /\ length recs = 1%nat)
    end.
Proof.
  unfold loop. revert i written. induction chunks as [|c rest IH]; intros i written.
  - exists []. simpl. rewrite app_nil_r. split; [done|]. split; [|done]. by intros k rec.
  - simpl. destruct (embed_record embed i c) as [rec|e] eqn:Hc.
    + destruct (time_sleep BATCH_SLEEP) as [[]|e] eqn:Hsleep.
      * destruct (IH (i + 1) (written ++ [rec])) as (recs & Hw & Hk & Hend).
        exists (rec :: recs). split; [by rewrite Hw, <- app_assoc|]. split.
        -- intros [|k] r; simpl.
           ++ intros [= <-]. exists c. split; [done|]. rewrite <- Hc. f_equal. lia.
           ++ intros Hr. destruct (Hk k r Hr) as (c' & Hc' & Hrec). exists c'.
              split; [done|]. rewrite <- Hrec. f_equal. lia.
        -- destruct ((embed_chunks embed BATCH_SLEEP time_sleep (i + 1) rest
                        (written ++ [rec])).2) as [[]|e].
           ++ simpl. by rewrite Hend.
           ++ destruct Hend as [(c' & Hc' & Hrec)|[Hraise _]]; [|done].
              left. exists c'. split; [done|].
              rewrite <- Hrec. f_equal. simpl length. lia.
      * exists [rec]. simpl. split; [done|]. split; [|by right].
        intros [|k] r; simpl; [|done].
        intros [= <-]. exists c. split; [done|]. rewrite <- Hc. f_equal. lia.
    + exists []. simpl. rewrite app_nil_r. split; [done|]. split; [by intros k rec|].
      left. exists c. split; [done|]. rewrite <- Hc. f_equal. simpl. lia.
Qed.

Lemma embed_record_shape (i : Z) (c rec : pyval) :
  embed_record embed i c = Ok rec ->
  exists cid emb meta, rec = PDict [("id", cid); ("embedding", emb); ("metadata", meta)].
Proof.
  unfold embed_record. destruct c; try done.
  destruct (py_getitem (PDict d) "text") as [t|]; [|done]. simpl.
  destruct (embed t) as [emb|]; [|done]. simpl.
  destruct (py_slice_to (dict_get d "text" PNone) 300) as [p|]; [|done]. simpl.
  intros [= <-]. eauto.
Qed.

End Records.

(** X7.  When [chunks.jsonl] holds no chunk, the run ends without opening the
    output file.  Otherwise the output file is opened.  When the pause
    [time.sleep(BATCH_SLEEP)] returns, the file holds, in the order of the
    chunks, the records of the chunks before the first one that fails;
    the run ends well when none fails and with the exception of that
    chunk otherwise.  When the pause raises, the run ends at the first
    chunk: with the exception of the chunk and an empty file when the
    chunk fails, and otherwise with the exception of the pause and the
    record of that chunk alone in the file. *)
Theorem embed_main_writes_prefix (embed : pyval -> result pyval)
    (BATCH_SLEEP : Q) (time_sleep : Q -> result unit) (file : list Uploader.line) :
  let run := main embed BATCH_SLEEP time_sleep (Some file) in
  (read_chunks file = [] -> run = (None, Ok tt)) /\
  (read_chunks file <> [] -> time_sleep BATCH_SLEEP = Ok tt ->
   exists recs : list pyval,
     run.1 = Some recs /\
     (forall (k : nat) (rec : pyval), recs !! k = Some rec ->
        exists c, read_chunks file !! k = Some c /\
                  embed_record embed (1 + Z.of_nat k) c = Ok rec) /\
     match run.2 with
     | Ok _ => length recs = length (read_chunks file)
     | Raise e =>
         exists c, read_chunks file !! length recs = Some c /\
                   embed_record embed (1 + Z.of_nat (length recs)) c = Raise e
     end) /\
  (forall (c0 : pyval) (rest : list pyval) (e : exn),
     read_chunks file = c0 :: rest -> time_sleep BATCH_SLEEP = Raise e ->
     run = match embed_record embed 1 c0 with
           | Ok rec => (Some [rec], Raise e)
           | Raise e' => (Some [], Raise e')
           end).
Proof.
  unfold main. cbv zeta. split; [|split].
  - by intros ->.
  - intros Hne Hsleep. destruct (read_chunks file) as [|c0 chunks] eqn:E; [done|].
    change (Z.of_nat (length (c0 :: chunks)) =? 0) with false. cbv iota.
    destruct (embed_chunks_spec embed BATCH_SLEEP time_sleep (c0 :: chunks) 1 [])
      as (recs & Hw & Hk & Hend).
    destruct (embed_chunks embed BATCH_SLEEP time_sleep 1 (c0 :: chunks) []) as [w o].
    simpl in *. exists recs. subst w. split; [done|]. split; [done|].
    destruct o as [[]|e]; [done|].
    destruct Hend as [Hend|[Hraise _]]; [done|]. by rewrite Hsleep in Hraise.
  - intros c0 rest e -> Hsleep.
    change (Z.of_nat (length (c0 :: rest)) =? 0) with false. cbv iota.
    cbn [embed_chunks]. rewrite Hsleep.
    by destruct (embed_record embed 1 c0).
Qed.

(** A file of three lines, the second malformed, whose second chunk has
    no text: with a pause of 0.08 s the file holds the record of the first
    chunk; with a pause of -1 s the run ends after that record, with the
    [ValueError] of the pause. *)
Lemma embed_main_writes_prefix_witness :
  (exists recs : list pyval,
     (main (fun _ => Ok (PList [PInt 1])) (8 # 100) sleep_in_range
        (Some [Uploader.Json (PDict [("id", PStr "a"); ("text", PStr "fever")]);
               Uploader.Malformed;
               Uploader.Json (PDict [("id", PStr "b")])])).1 = Some recs /\
     length recs = 1%nat) /\
  main (fun _ => Ok (PList [PInt 1])) (- 1 # 1) sleep_in_range
    (Some [Uploader.Json (PDict [("id", PStr "a"); ("text", PStr "fever")]);
           Uploader.Json (PDict [("id", PStr "b"); ("text", PStr "cough")])])
  = (Some [PDict [("id", PStr "a"); ("embedding", PList [PInt 1]);
                  ("metadata", PDict [("source", PNone); ("page", PNone);
                                      ("chunk_id", PNone); ("preview", PStr "fever")])]],
     Raise (ValueError "sleep length must be non-negative")).
Proof.
  split.
  - destruct (proj1 (proj2 (embed_main_writes_prefix (fun _ => Ok (PList [PInt 1]))
                (8 # 100) sleep_in_range
                [Uploader.Json (PDict [("id", PStr "a"); ("text", PStr "fever")]);
                 Uploader.Malformed;
                 Uploader.Json (PDict [("id", PStr "b")])])))
      as (recs & Hw & _ & _); [discriminate|reflexivity|].
    exists recs. split; [exact Hw|]. by injection Hw as <-.
  - apply (proj2 (proj2 (embed_main_writes_prefix (fun _ => Ok (PList [PInt 1]))
                (- 1 # 1) sleep_in_range
                [Uploader.Json (PDict [("id", PStr "a"); ("text", PStr "fever")]);
                 Uploader.Json (PDict [("id", PStr "b"); ("text", PStr "cough")])]))
             (PDict [("id", PStr "a"); ("text", PStr "fever")])
             [PDict [("id", PStr "b"); ("text", PStr "cough")]]
             (ValueError "sleep length must be non-negative"));
      reflexivity.
Defined.

(** X8.  What the embedder writes, the uploader reads: after a run that ends
    well, every line of the output has the keys that [read_items] asks for,
    and the dimension that [detect_dim] reports is the length of the first
    embedding written. *)
Theorem embed_output_feeds_uploader (embed : pyval -> result pyval)
    (BATCH_SLEEP : Q) (time_sleep : Q -> result unit)
    (file : list Uploader.line) (recs : list pyval) :
  main embed BATCH_SLEEP time_sleep (Some file) = (Some recs, Ok tt) ->
  Uploader.read_items (map Uploader.Json recs) = Ok (map record_item recs) /\
  exists rec0 rest,
    recs = rec0 :: rest /\
    Uploader.detect_dim (map Uploader.Json recs) = py_len (record_item rec0).1.2.
Proof.
  unfold main. destruct (read_chunks file) as [|c0 chunks] eqn:E; [done|].
  change (Z.of_nat (length (c0 :: chunks)) =? 0) with false. cbv iota.
  destruct (embed_chunks_spec embed BATCH_SLEEP time_sleep (c0 :: chunks) 1 [])
    as (recs' & Hw & Hk & Hend).
  destruct (embed_chunks embed BATCH_SLEEP time_sleep 1 (c0 :: chunks) []) as [w o].
  simpl in Hw, Hend.
  intros [= -> ->]. subst recs.
  assert (Hshape : Forall (fun rec => exists cid emb meta,
                     rec = PDict [("id", cid); ("embedding", emb); ("metadata", meta)]) recs').
  { apply Forall_lookup. intros k rec Hrec. destruct (Hk k rec Hrec) as (c & _ & Hc).
    by apply embed_record_shape in Hc. }
  split.
  - clear Hk Hend. induction recs' as [|rec recs IH]; [done|].
    apply Forall_cons in Hshape as [(cid & emb & meta & ->) Hshape].
    simpl. by rewrite (IH Hshape).
  - destruct recs' as [|rec0 rest]; [done|].
    exists rec0, rest. split; [done|].
    apply Forall_cons in Hshape as [(cid & emb & meta & ->) _]. done.
Qed.

Lemma embed_output_feeds_uploader_witness :
  Uploader.read_items
    (map Uploader.Json
       [PDict [("id", PStr "a"); ("embedding", PList [PInt 1; PInt 2]);
               ("metadata", PDict [("source", PNone); ("page", PNone);
                                   ("chunk_id", PNone); ("preview", PStr "fever")])]])
  = Ok (map record_item
       [PDict [("id", PStr "a"); ("embedding", PList [PInt 1; PInt 2]);
               ("metadata", PDict [("source", PNone); ("page", PNone);
                                   ("chunk_id", PNone); ("preview", PStr "fever")])]]).
Proof.
  apply (embed_output_feeds_uploader (fun _ => Ok (PList [PInt 1; PInt 2]))
           (8 # 100) sleep_in_range
           [Uploader.Blank; Uploader.Json (PDict [("id", PStr "a"); ("text", PStr "fever")])]).
  reflexivity.
Defined.

(** ** From a chunk to the text shown for a match *)

Lemma str_slice_to_nonempty (s : string) (n : Z) :
  s <> EmptyString -> 1 <= n -> str_slice_to s n <> EmptyString.
Proof.
  intros Hs Hn. unfold str_slice_to, clamp, len_str.
  destruct (Z.ltb_spec n 0); [lia|].
  destruct s as [|c s]; [done|]. simpl String.length.
  destruct (Z.to_nat (Z.min n (Z.of_nat (S (String.length s))))) eqn:E; [lia|done].
Qed.

(** X9.  A chunk of the chunker, embedded and then returned by the index as a
    match, is shown in the context by the first 300 characters of its
    text, which are not empty; its id is kept. *)
Theorem chunk_preview_is_display_text (fuel : nat) (stem name : string)
    (pages : list Chunker.pdf_page) (chunk_size overlap : Z)
    (chunks : list Chunker.chunk) (c : Chunker.chunk)
    (embed : pyval -> result pyval) (i : Z) (emb score : pyval) :
  Chunker.extract_chunks_from_pdf_mupdf fuel stem name pages chunk_size overlap = Some chunks ->
  c ∈ chunks ->
  embed (PStr (Chunker.text c)) = Ok emb ->
  exists meta : pyval,
    embed_record embed i (ChunkFile.chunk_json c) =
      Ok (PDict [("id", PStr (Chunker.id c)); ("embedding", emb); ("metadata", meta)]) /\
    App.display_text
      (App.normalize_match
         (PDict [("id", PStr (Chunker.id c)); ("score", score); ("metadata", meta)]))
    = Ok (PStr (str_slice_to (Chunker.text c) 300)) /\
    str_slice_to (Chunker.text c) 300 <> EmptyString.
Proof.
  intros Hrun Hin Hemb.
  apply ChunkerMore.extract_pages_wellformed in Hrun as [Hall _].
  rewrite Forall_forall in Hall. destruct (Hall c Hin) as (Htext & _ & _ & _ & _ & Hid).
  assert (Hidne : Chunker.id c <> EmptyString).
  { rewrite Hid. unfold Chunker.chunk_name. intros [_ H]%app_eq_empty. done. }
  pose proof (str_slice_to_nonempty _ 300 Htext ltac:(lia)) as Hprev.
  set (md := [("source", PStr (Chunker.source c)); ("page", PInt (Chunker.page c));
              ("chunk_id", PInt (Chunker.chunk_id c));
              ("preview", PStr (str_slice_to (Chunker.text c) 300))]).
  exists (PDict md). split; [|split; [|done]].
  - change (embed_record embed i (ChunkFile.chunk_json c))
      with (emb' ← embed (PStr (Chunker.text c));
            Ok (PDict [("id", py_or (PStr (Chunker.id c)) (PStr ("chunk_" +:+ str_of_Z i)));
                       ("embedding", emb'); ("metadata", PDict md)])).
    rewrite Hemb. unfold py_or. cbn [truthy mbind result_bind].
    by rewrite (eqb_empty_false _ Hidne).
  - change (App.display_text _) with (Ok (App.meta_preview (PDict md))).
    rewrite AppFacts.meta_preview_dict. cbn [App.first_nonempty].
    change (dict_get md "preview" PNone) with (PStr (str_slice_to (Chunker.text c) 300)).
    cbn [truthy]. by rewrite (eqb_empty_false _ Hprev).
Qed.

Lemma chunk_preview_is_display_text_witness :
  exists meta : pyval,
    embed_record (fun _ => Ok (PList [PInt 1])) 1
      (ChunkFile.chunk_json (Chunker.mk_chunk "doc_p1_c0" "doc.pdf" 1 0 "feverish patient")) =
      Ok (PDict [("id", PStr "doc_p1_c0"); ("embedding", PList [PInt 1]); ("metadata", meta)]) /\
    App.display_text
      (App.normalize_match
         (PDict [("id", PStr "doc_p1_c0"); ("score", PInt 1); ("metadata", meta)]))
    = Ok (PStr (str_slice_to "feverish patient" 300)) /\
    str_slice_to "feverish patient" 300 <> EmptyString.
Proof.
  apply (chunk_preview_is_display_text 5 "doc" "doc.pdf"
           [Chunker.mk_page None (Chunker.OcrText "feverish patient")] 300 50
           [Chunker.mk_chunk "doc_p1_c0" "doc.pdf" 1 0 "feverish patient"]
           (Chunker.mk_chunk "doc_p1_c0" "doc.pdf" 1 0 "feverish patient")).
  - reflexivity.
  - apply list_elem_of_here.
  - reflexivity.
Defined.

End EmbedMainFacts.

(* ===================================================================== *)
(** * More on the uploader: batches, edge cases, the lookups *)
(* ===================================================================== *)

Module UploaderMore.
Import Uploader UploaderFacts UploadSdk.

(** Batch [k] is the slice of the items from [k * size], non-empty. *)
Lemma batches_lookup {A : Type} (n size : nat) (items : list A) (k : nat) (b : list A) :
  (1 <= size)%nat ->
  batches n size items !! k = Some b ->
  b = take size (drop (k * size) items) /\ b <> [].
Proof.
  intros Hsize. revert items k. induction n as [|n IH]; intros items k; [done|].
  destruct items as [|x items]; [done|].
  change (batches (S n) size (x :: items))
    with (take size (x :: items) :: batches n size (drop size (x :: items))).
  destruct k as [|k].
  - simpl lookup. intros [= <-]. split; [done|]. destruct size; [lia|done].
  - simpl lookup. intros [-> Hne]%IH. split; [|done].
    by rewrite drop_drop.
Qed.

Lemma upsert_calls_cover (target : string) (BATCH_SIZE : Z)
    (items : list (pyval * pyval * pyval)) (ups : list api_call) :
  0 < BATCH_SIZE ->
  upsert_calls target BATCH_SIZE items = Ok ups ->
  concat (map upsert_vectors ups) = map vector_of items /\
  Forall (fun c => (1 <= length (upsert_vectors c) <= Z.to_nat BATCH_SIZE)%nat) ups.
Proof.
  intros Hpos. unfold upsert_calls.
  destruct (Z.eqb_spec BATCH_SIZE 0); [lia|]. destruct (Z.ltb_spec BATCH_SIZE 0); [lia|].
  intros [= <-]. split.
  - assert (Hcat : forall bs : list (list (pyval * pyval * pyval)),
              concat (map upsert_vectors (map (fun b => Upsert target (map vector_of b)) bs))
              = map vector_of (concat bs)).
    { induction bs as [|b bs IH]; [done|]. simpl. by rewrite map_app, IH. }
    by rewrite Hcat, concat_batches by lia.
  - apply Forall_fmap, Forall_lookup. intros k b Hb. simpl.
    apply batches_lookup in Hb as [-> Hne]; [|lia].
    rewrite length_map. split.
    + destruct (take _ _); [done|simpl; lia].
    + rewrite length_take. lia.
Qed.

(** X10.  With a positive batch size, a run that completes has written every
    record of the file exactly once and in the order of the file, in
    upserts of at least one and at most [BATCH_SIZE] vectors, all to the
    index whose name it returns. *)
Theorem upserts_cover_all_records (int_of_str : string -> option Z)
    (INDEX_NAME PINECONE_ENVIRONMENT : string) (BATCH_SIZE : Z)
    (file : list line) (existing : list string) (describe index_describe : sdk_call)
    (calls : list api_call) (name : string) :
  0 < BATCH_SIZE ->
  main int_of_str INDEX_NAME PINECONE_ENVIRONMENT BATCH_SIZE file existing
       describe index_describe = (calls, Ok name) ->
  exists items,
    read_items file = Ok items /\
    concat (map upsert_vectors calls) = map vector_of items /\
    Forall (fun c => is_upsert c = true ->
                     call_index c = name /\
                     (1 <= length (upsert_vectors c) <= Z.to_nat BATCH_SIZE)%nat) calls.
Proof.
  intros Hpos. unfold main.
  destruct (detect_dim file) as [dim|]; [|done].
  set (target := resolve_target _ _ _ _).
  destruct (read_items file) as [items|]; [|done].
  destruct (upsert_calls target BATCH_SIZE items) as [ups|] eqn:Hups; [|done].
  intros [= <- <-]. exists items. split; [done|].
  destruct (upsert_calls_cover _ _ _ _ Hpos Hups) as [Hcat Hsize].
  pose proof (upsert_calls_target _ _ _ _ Hups) as Htarget.
  unfold create_calls. destruct (bool_decide (target ∈ existing)); simpl.
  - split; [done|]. apply Forall_forall. intros c Hc _.
    rewrite Forall_forall in Hsize, Htarget.
    split; [by apply Htarget|by apply Hsize].
  - split; [done|]. constructor; [done|]. apply Forall_forall. intros c Hc _.
    rewrite Forall_forall in Hsize, Htarget.
    split; [by apply Htarget|by apply Hsize].
Qed.

Lemma upserts_cover_all_records_witness :
  exists items,
    read_items [Json (PDict [("id", PStr "a"); ("embedding", PList [PInt 1])]);
                Json (PDict [("id", PStr "b"); ("embedding", PList [PInt 2])]);
                Json (PDict [("id", PStr "c"); ("embedding", PList [PInt 3])])] = Ok items /\
    concat (map upsert_vectors
              [CreateIndex "medibot-rag" 1 "cosine" "aws" "us-east-1";
               Upsert "medibot-rag"
                 [PDict [("id", PStr "a"); ("values", PList [PInt 1]); ("metadata", PDict [])];
                  PDict [("id", PStr "b"); ("values", PList [PInt 2]); ("metadata", PDict [])]];
               Upsert "medibot-rag"
                 [PDict [("id", PStr "c"); ("values", PList [PInt 3]); ("metadata", PDict [])]]])
    = map vector_of items.
Proof.
  destruct (upserts_cover_all_records (fun _ => None) "medibot-rag" "us-east-1" 2
              [Json (PDict [("id", PStr "a"); ("embedding", PList [PInt 1])]);
               Json (PDict [("id", PStr "b"); ("embedding", PList [PInt 2])]);
               Json (PDict [("id", PStr "c"); ("embedding", PList [PInt 3])])]
              [] NoSuchMethod NoSuchMethod
              [CreateIndex "medibot-rag" 1 "cosine" "aws" "us-east-1";
               Upsert "medibot-rag"
                 [PDict [("id", PStr "a"); ("values", PList [PInt 1]); ("metadata", PDict [])];
                  PDict [("id", PStr "b"); ("values", PList [PInt 2]); ("metadata", PDict [])]];
               Upsert "medibot-rag"
                 [PDict [("id", PStr "c"); ("values", PList [PInt 3]); ("metadata", PDict [])]]]
              "medibot-rag")
    as (items & Hread & Hcat & _); [lia|reflexivity|].
  exists items. split; [exact Hread|exact Hcat].
Defined.

(** X11.  With a batch size of zero the run raises the [ValueError] of [range],
    after the index may have been created; with a negative batch size it
    ends well and returns the index name.  Either way it writes no
    record. *)
Theorem nonpositive_batch_size_uploads_nothing (int_of_str : string -> option Z)
    (INDEX_NAME PINECONE_ENVIRONMENT : string) (BATCH_SIZE : Z)
    (file : list line) (existing : list string) (describe index_describe : sdk_call)
    (D : Z) (items : list (pyval * pyval * pyval)) :
  BATCH_SIZE <= 0 ->
  detect_dim file = Ok D ->
  read_items file = Ok items ->
  Forall (fun c => is_upsert c = false)
    (main int_of_str INDEX_NAME PINECONE_ENVIRONMENT BATCH_SIZE file existing
          describe index_describe).1 /\
  (BATCH_SIZE < 0 ->
   (main int_of_str INDEX_NAME PINECONE_ENVIRONMENT BATCH_SIZE file existing
         describe index_describe).2 =
     Ok (resolve_target INDEX_NAME existing
           (try_get_index_dimension int_of_str describe index_describe) D)) /\
  (BATCH_SIZE = 0 ->
   exists msg,
     (main int_of_str INDEX_NAME PINECONE_ENVIRONMENT BATCH_SIZE file existing
           describe index_describe).2 = Raise (ValueError msg)).
Proof.
  intros Hle Hdim Hread. unfold main. rewrite Hdim, Hread.
  set (target := resolve_target _ _ _ _).
  assert (Hcreate : Forall (fun c => is_upsert c = false)
                      (create_calls target existing D PINECONE_ENVIRONMENT)).
  { unfold create_calls. destruct (bool_decide (target ∈ existing)); repeat constructor. }
  unfold upsert_calls. destruct (Z.eqb_spec BATCH_SIZE 0) as [->|Hne]; simpl.
  - split; [done|]. split; [lia|]. intros _. eauto.
  - destruct (Z.ltb_spec BATCH_SIZE 0); [|lia]. simpl. rewrite app_nil_r.
    split; [done|]. split; [done|lia].
Qed.

Lemma nonpositive_batch_size_uploads_nothing_witness :
  (main (fun _ => None) "medibot-rag" "us-east-1" (-1)
        [Json (PDict [("id", PStr "a"); ("embedding", PList [PInt 1])])]
        [] NoSuchMethod NoSuchMethod).2
  = Ok (resolve_target "medibot-rag" []
          (try_get_index_dimension (fun _ => None) NoSuchMethod NoSuchMethod) 1).
Proof.
  apply (proj1 (proj2 (nonpositive_batch_size_uploads_nothing (fun _ => None)
           "medibot-rag" "us-east-1" (-1)
           [Json (PDict [("id", PStr "a"); ("embedding", PList [PInt 1])])]
           [] NoSuchMethod NoSuchMethod 1
           [(PStr "a", PList [PInt 1], PDict [])] ltac:(lia) eq_refl eq_refl))).
  lia.
Defined.

(** X12.  A file that cannot be read is not uploaded: when the dimension
    cannot be detected the run sends no call at all, and when a later line
    cannot be read it sends no upsert; both runs end with an exception. *)
Theorem unreadable_file_uploads_nothing (int_of_str : string -> option Z)
    (INDEX_NAME PINECONE_ENVIRONMENT : string) (BATCH_SIZE : Z)
    (file : list line) (existing : list string) (describe index_describe : sdk_call) :
  (forall e, detect_dim file = Raise e ->
     main int_of_str INDEX_NAME PINECONE_ENVIRONMENT BATCH_SIZE file existing
          describe index_describe = ([], Raise e)) /\
  (forall e, read_items file = Raise e ->
     Forall (fun c => is_upsert c = false)
       (main int_of_str INDEX_NAME PINECONE_ENVIRONMENT BATCH_SIZE file existing
             describe index_describe).1 /\
     exists e',
       (main int_of_str INDEX_NAME PINECONE_ENVIRONMENT BATCH_SIZE file existing
             describe index_describe).2 = Raise e').
Proof.
  split.
  - intros e He. unfold main. by rewrite He.
  - intros e He. unfold main. destruct (detect_dim file) as [dim|e'].
    + rewrite He. simpl. split; [|eauto].
      unfold create_calls. destruct (bool_decide _); repeat constructor.
    + simpl. split; [constructor|eauto].
Qed.

(** A second record without "id": the index is created, nothing is
    written. *)
Lemma unreadable_file_uploads_nothing_witness :
  main (fun _ => None) "medibot-rag" "us-east-1" 100 [Blank] [] NoSuchMethod NoSuchMethod
    = ([], Raise (RuntimeError "No embeddings found in file")) /\
  Forall (fun c => is_upsert c = false)
    (main (fun _ => None) "medibot-rag" "us-east-1" 100
          [Json (PDict [("id", PStr "a"); ("embedding", PList [PInt 1])]);
           Json (PDict [("embedding", PList [PInt 2])])]
          [] NoSuchMethod NoSuchMethod).1.
Proof.
  split.
  - apply (proj1 (unreadable_file_uploads_nothing (fun _ => None) "medibot-rag" "us-east-1"
                    100 [Blank] [] NoSuchMethod NoSuchMethod)).
    reflexivity.
  - apply (proj2 (unreadable_file_uploads_nothing (fun _ => None) "medibot-rag" "us-east-1"
                    100 [Json (PDict [("id", PStr "a"); ("embedding", PList [PInt 1])]);
                         Json (PDict [("embedding", PList [PInt 2])])]
                    [] NoSuchMethod NoSuchMethod) (KeyError "id")).
    reflexivity.
Defined.

(** ** The dimension lookups *)

Lemma read_dimension_top (int_of_str : string -> option Z) (info : dict) (D : Z) :
  dict_lookup info "dimension" = Some (PInt D) -> D <> 0 ->
  read_dimension int_of_str (PDict info) = Ok (Some D).
Proof.
  intros Hdim HD. unfold read_dimension, dict_get. rewrite Hdim. simpl.
  destruct (Z.eqb_spec D 0); [done|]. simpl. by destruct (Z.eqb_spec D 0).
Qed.

(** X13.  An index that is listed, and whose description is a dict giving the
    dimension of the file, is reused: the run creates no index and every
    call it sends is an upsert to the target name, which it returns. *)
Theorem matching_dimension_reuses_index (int_of_str : string -> option Z)
    (INDEX_NAME PINECONE_ENVIRONMENT : string) (BATCH_SIZE : Z)
    (file : list line) (existing : list string) (info : dict) (index_describe : sdk_call)
    (D : Z) (calls : list api_call) (outcome : result string) :
  INDEX_NAME ∈ existing ->
  dict_lookup info "dimension" = Some (PInt D) ->
  detect_dim file = Ok D ->
  D <> 0 ->
  main int_of_str INDEX_NAME PINECONE_ENVIRONMENT BATCH_SIZE file existing
       (Returns (PDict info)) index_describe = (calls, outcome) ->
  Forall (fun c => is_upsert c = true /\ call_index c = INDEX_NAME) calls /\
  (forall name, outcome = Ok name -> name = INDEX_NAME).
Proof.
  intros Hin Hinfo Hdim HD. unfold main. rewrite Hdim.
  assert (Htarget : resolve_target INDEX_NAME existing
            (try_get_index_dimension int_of_str (Returns (PDict info)) index_describe) D
            = INDEX_NAME).
  { unfold try_get_index_dimension. rewrite (read_dimension_top _ _ _ Hinfo HD).
    unfold resolve_target. rewrite bool_decide_eq_true_2 by done.
    by rewrite Z.eqb_refl. }
  rewrite Htarget. unfold create_calls. rewrite bool_decide_eq_true_2 by done.
  destruct (read_items file) as [items|e]; [|by intros [= <- <-]].
  destruct (upsert_calls INDEX_NAME BATCH_SIZE items) as [ups|e] eqn:Hups;
    [|by intros [= <- <-]].
  intros [= <- <-]. split; [by apply upsert_calls_target in Hups|].
  by intros name [= <-].
Qed.

Lemma matching_dimension_reuses_index_witness :
  Forall (fun c => is_upsert c = true /\ call_index c = "medibot-rag")
    [Upsert "medibot-rag"
       [PDict [("id", PStr "a"); ("values", PList [PInt 1; PInt 2]); ("metadata", PDict [])]]].
Proof.
  refine (proj1 (matching_dimension_reuses_index (fun _ => None) "medibot-rag" "us-east-1" 100
            [Json (PDict [("id", PStr "a"); ("embedding", PList [PInt 1; PInt 2])])]
            ["medibot-rag"] [("name", PStr "medibot-rag"); ("dimension", PInt 2)]
            NoSuchMethod 2
            [Upsert "medibot-rag"
               [PDict [("id", PStr "a"); ("values", PList [PInt 1; PInt 2]);
                       ("metadata", PDict [])]]]
            (Ok "medibot-rag") _ _ _ _ _)).
  - apply list_elem_of_here.
  - reflexivity.
  - reflexivity.
  - lia.
  - reflexivity.
Defined.

Lemma read_dimension_not_dict (int_of_str : string -> option Z) (info : pyval) :
  (forall d, info <> PDict d) -> read_dimension int_of_str info = Ok None.
Proof. intros H. destruct info; try done. by destruct (H d). Qed.

(** X14.  The dimension of an index is read from descriptions that are dicts
    only.  When neither description is one (an SDK that returns objects),
    no dimension is found, and a run against a listed index is redirected
    to the derived name, whatever the dimension of that index is. *)
Theorem object_descriptions_force_redirect (int_of_str : string -> option Z)
    (INDEX_NAME PINECONE_ENVIRONMENT : string) (BATCH_SIZE : Z)
    (file : list line) (existing : list string) (describe index_describe : sdk_call)
    (D : Z) :
  (forall d, describe <> Returns (PDict d)) ->
  (forall d, index_describe <> Returns (PDict d)) ->
  try_get_index_dimension int_of_str describe index_describe = None /\
  (INDEX_NAME ∈ existing -> detect_dim file = Ok D ->
   forall name,
     (main int_of_str INDEX_NAME PINECONE_ENVIRONMENT BATCH_SIZE file existing
           describe index_describe).2 = Ok name ->
     name = derived_name INDEX_NAME D).
Proof.
  intros H1 H2.
  assert (Hnone : try_get_index_dimension int_of_str describe index_describe = None).
  { unfold try_get_index_dimension.
    assert (Hsecond : match index_describe with
                      | Returns info2 =>
                          match read_dimension int_of_str info2 with
                          | Ok (Some n) => Some n
                          | _ => None
                          end
                      | _ => None
                      end = None).
    { destruct index_describe as [| |info2]; try done.
      rewrite read_dimension_not_dict; [done|]. intros d ->. by destruct (H2 d). }
    rewrite Hsecond. destruct describe as [| |info]; try done.
    rewrite read_dimension_not_dict; [done|]. intros d ->. by destruct (H1 d). }
  split; [done|]. intros Hin Hdim name. unfold main. rewrite Hdim, Hnone.
  rewrite (resolve_target_redirect INDEX_NAME existing None D Hin) by by left.
  destruct (read_items file); [|done].
  destruct (upsert_calls _ _ _); [|done]. by intros [= <-].
Qed.

Lemma object_descriptions_force_redirect_witness :
  try_get_index_dimension (fun _ => None)
    (Returns (PObj [("name", PStr "medibot-rag"); ("dimension", PInt 384)])) NoSuchMethod
  = None.
Proof.
  apply (proj1 (object_descriptions_force_redirect (fun _ => None) "medibot-rag" "us-east-1"
           100 [] [] (Returns (PObj [("name", PStr "medibot-rag"); ("dimension", PInt 384)]))
           NoSuchMethod 384 ltac:(discriminate) ltac:(discriminate))).
Defined.

(** ** The listing of the indexes *)

(** X15.  When [pc.list_indexes()] raises or is missing, the run goes on as if
    no index existed: it asks for the creation of the target name itself,
    with the dimension of the file, and upserts to it. *)
Theorem listing_failure_creates_target (int_of_str : string -> option Z)
    (INDEX_NAME PINECONE_ENVIRONMENT : string) (BATCH_SIZE : Z)
    (file : list line) (list_indexes names describe index_describe : sdk_call)
    (D : Z) (items : list (pyval * pyval * pyval)) (ups : list api_call) :
  list_indexes = CallRaises \/ list_indexes = NoSuchMethod ->
  detect_dim file = Ok D ->
  read_items file = Ok items ->
  upsert_calls INDEX_NAME BATCH_SIZE items = Ok ups ->
  main_sdk int_of_str INDEX_NAME PINECONE_ENVIRONMENT BATCH_SIZE file
           list_indexes names describe index_describe
  = (CreateIndex INDEX_NAME D "cosine" "aws" PINECONE_ENVIRONMENT :: ups, Ok INDEX_NAME).
Proof.
  intros Hlist Hdim Hread Hups. unfold main_sdk. rewrite Hdim.
  assert (Hex : get_existing_indexes list_indexes names = Ok []).
  { by destruct Hlist as [-> | ->]. }
  rewrite Hex. unfold main. rewrite Hdim, Hread. simpl.
  unfold resolve_target, create_calls. simpl. by rewrite Hups.
Qed.

Lemma listing_failure_creates_target_witness :
  main_sdk (fun _ => None) "medibot-rag" "us-east-1" 100
    [Json (PDict [("id", PStr "a"); ("embedding", PList [PInt 1; PInt 2])])]
    CallRaises NoSuchMethod (Returns (PDict [("dimension", PInt 2)])) NoSuchMethod
  = (CreateIndex "medibot-rag" 2 "cosine" "aws" "us-east-1" ::
     [Upsert "medibot-rag"
        [PDict [("id", PStr "a"); ("values", PList [PInt 1; PInt 2]); ("metadata", PDict [])]]],
     Ok "medibot-rag").
Proof.
  apply (listing_failure_creates_target (fun _ => None) "medibot-rag" "us-east-1" 100
           [Json (PDict [("id", PStr "a"); ("embedding", PList [PInt 1; PInt 2])])]
           CallRaises NoSuchMethod (Returns (PDict [("dimension", PInt 2)])) NoSuchMethod 2
           [(PStr "a", PList [PInt 1; PInt 2], PDict [])]);
    [by left|reflexivity..].
Defined.

End UploaderMore.

(* ===================================================================== *)
(** * More on the application: the context, and the route [/ask] *)
(* ===================================================================== *)

Module AppMore.
Import App AppFacts.

(** ** The context for matches with texts *)

Lemma text_chars_nonneg (ps : list string) : 0 <= text_chars ps.
Proof. unfold text_chars, len_str. induction ps as [|p ps IH]; simpl; lia. Qed.

Lemma strs_of_strs (ps : list string) : strs_of (map PStr ps) = Ok ps.
Proof. induction ps as [|p ps IH]; [done|]. simpl. by rewrite IH. Qed.

(** Matches whose texts fit the budget are all collected. *)
Lemma collect_parts_fitting (ms : list pyval) (ps : list string) (rest : list pyval)
    (max_chars : Z) (parts : list pyval) (total : Z) :
  Forall2 (fun m p => display_text m = Ok (PStr p) /\ p <> EmptyString) ms ps ->
  total + text_chars ps <= max_chars ->
  collect_parts (ms ++ rest) max_chars parts total =
  collect_parts rest max_chars (parts ++ map PStr ps) (total + text_chars ps).
Proof.
  intros Hms. revert parts total.
  induction Hms as [|m p ms ps [Hm Hp] _ IH]; intros parts total Hfit.
  - simpl. rewrite app_nil_r. f_equal. unfold text_chars. simpl. lia.
  - cbn [app collect_parts]. rewrite Hm. cbn [mbind result_bind].
    rewrite (proj2 (truthy_str p) Hp). cbn [negb py_len mbind result_bind].
    change (text_chars (p :: ps)) with (len_str p + text_chars ps) in *.
    pose proof (text_chars_nonneg ps).
    destruct (Z.gtb_spec (total + len_str p) max_chars); [lia|].
    rewrite IH by lia. cbn [map]. rewrite <- app_assoc. f_equal. lia.
Qed.

(** X17.  When the texts of all matches fit the budget together, the context is
    these texts, in the order of the matches, separated by blank lines,
    and trimmed. *)
Theorem context_of_fitting_matches (ms : list pyval) (ps : list string) (max_chars : Z) :
  Forall2 (fun m p => display_text m = Ok (PStr p) /\ p <> EmptyString) ms ps ->
  text_chars ps <= max_chars ->
  build_context_from_matches ms max_chars = Ok (strip (join SEP ps)).
Proof.
  intros Hms Hfit. unfold build_context_from_matches.
  rewrite <- (app_nil_r ms), (collect_parts_fitting ms ps [] max_chars [] 0 Hms) by lia.
  simpl. unfold py_join. by rewrite strs_of_strs.
Qed.

Lemma context_of_fitting_matches_witness :
  build_context_from_matches
    [PDict [("metadata", PDict [("preview", PStr "rest")])];
     PDict [("metadata", PStr " fluids ")]] 10
  = Ok (strip (join SEP ["rest"; "fluids"])).
Proof.
  apply context_of_fitting_matches.
  - repeat constructor; discriminate.
  - vm_compute. discriminate.
Defined.

(** X18.  The first match whose text goes over the budget is cut to what is
    left of the budget, and no match after it is looked at: the context is
    the texts before it and its cut text. *)
Theorem context_truncates_at_overflow (ms after : list pyval) (ps : list string)
    (m : pyval) (q : string) (max_chars : Z) :
  Forall2 (fun m p => display_text m = Ok (PStr p) /\ p <> EmptyString) ms ps ->
  display_text m = Ok (PStr q) ->
  q <> EmptyString ->
  text_chars ps <= max_chars < text_chars ps + len_str q ->
  build_context_from_matches (ms ++ m :: after) max_chars =
  Ok (strip (join SEP (ps ++ [str_slice_to q (max_chars - text_chars ps)]))).
Proof.
  intros Hms Hm Hq Hover. unfold build_context_from_matches.
  rewrite (collect_parts_fitting ms ps (m :: after) max_chars [] 0 Hms) by lia.
  cbn [collect_parts]. rewrite Hm. cbn [mbind result_bind].
  rewrite (proj2 (truthy_str q) Hq). cbn [negb py_len mbind result_bind].
  destruct (Z.gtb_spec (0 + text_chars ps + len_str q) max_chars); [|lia].
  cbn [py_slice_to mbind result_bind app]. unfold py_join.
  replace (map PStr ps ++ [PStr (str_slice_to q (max_chars - (0 + text_chars ps)))])
    with (map PStr (ps ++ [str_slice_to q (max_chars - text_chars ps)]))
    by (rewrite map_app; simpl; do 3 f_equal; lia).
  by rewrite strs_of_strs.
Qed.

(** Three texts of twelve characters and a budget of 25: two texts in
    full, one character of the third, and the fourth match not looked
    at. *)
Lemma context_truncates_at_overflow_witness :
  build_context_from_matches
    ([PDict [("metadata", PDict [("preview", PStr "aaaaaaaaaaaa")])];
      PDict [("metadata", PDict [("preview", PStr "bbbbbbbbbbbb")])]] ++
      PDict [("metadata", PDict [("preview", PStr "cccccccccccc")])] ::
     [PInt 7]) 25
  = Ok (strip (join SEP (["aaaaaaaaaaaa"; "bbbbbbbbbbbb"] ++
                         [str_slice_to "cccccccccccc" (25 - text_chars ["aaaaaaaaaaaa"; "bbbbbbbbbbbb"])]))).
Proof.
  apply context_truncates_at_overflow.
  - repeat constructor; discriminate.
  - reflexivity.
  - discriminate.
  - vm_compute. split; [discriminate|reflexivity].
Defined.

(** X19.  The context neither starts nor ends with white space. *)
Theorem context_is_trimmed (matches : list pyval) (max_chars : Z) (context : string) :
  build_context_from_matches matches max_chars = Ok context ->
  strip context = context.
Proof.
  unfold build_context_from_matches.
  destruct (collect_parts matches max_chars [] 0) as [ps|]; [|done]. simpl.
  destruct (py_join SEP ps) as [joined|]; [|done]. simpl.
  intros [= <-]. apply ChunkerMore.strip_idem.
Qed.

Lemma context_is_trimmed_witness : strip "rest" = "rest".
Proof.
  apply (context_is_trimmed [PDict [("metadata", PDict [("preview", PStr "  rest ")])]] 100).
  reflexivity.
Defined.

Lemma context_text_within_budget_witness :
  exists parts : list string,
    "aaa" +:+ SEP +:+ "bbb" = strip (join SEP parts) /\
    (length parts <= 2)%nat /\
    text_chars parts <= 6 /\
    len_str ("aaa" +:+ SEP +:+ "bbb") <= 6 + 2 * Z.max 0 (Z.of_nat (length parts) - 1).
Proof.
  apply (context_text_within_budget
           [PDict [("metadata", PDict [("preview", PStr "aaa")])];
            PDict [("metadata", PDict [("preview", PStr "bbb")])]] 6); [lia|reflexivity].
Defined.

End AppMore.

Module AskFacts.
Import App AppFacts AskRoute.

Lemma str_take_all (s : string) : str_take (String.length s) s = s.
Proof. induction s as [|c s IH]; [done|]. simpl. by rewrite IH. Qed.

(** X20.  The preview sent back with the answer has at most 1003 characters; it
    is the context itself when that has at most 1000 characters, and its
    first 1000 characters followed by three dots otherwise. *)
Theorem context_preview_bounded (context : string) :
  len_str (context_preview context) <= 1003 /\
  (len_str context <= 1000 -> context_preview context = context) /\
  (1000 < len_str context ->
   context_preview context = str_take 1000 context +:+ "...").
Proof.
  unfold context_preview. split; [|split].
  - pose proof (len_str_slice_to context 1000 ltac:(lia)) as H.
    unfold len_str in *. rewrite length_app_str.
    destruct (Z.of_nat (String.length context) >? 1000); simpl; lia.
  - intros Hle. destruct (Z.gtb_spec (len_str context) 1000); [lia|].
    rewrite app_empty_r. unfold str_slice_to, clamp. simpl.
    rewrite Z.min_r by lia. unfold len_str. by rewrite Nat2Z.id, str_take_all.
  - intros Hgt. destruct (Z.gtb_spec (len_str context) 1000); [|lia].
    unfold str_slice_to, clamp. simpl. by rewrite Z.min_l by lia.
Qed.

Lemma context_preview_bounded_witness :
  context_preview "Drink fluids." = "Drink fluids.".
Proof.
  apply (proj1 (proj2 (context_preview_bounded "Drink fluids."))). vm_compute. discriminate.
Defined.

Section Ask.
Variable py_str : pyval -> string.
Variable str_of_exn : exn -> string.
Variable OLLAMA_MODEL : string.
Variable post : string -> string -> http_outcome.
Variable index_query : pyval -> Z -> result pyval.
Variable embed_query_local : string -> result pyval.
Variables (TOP_K MAX_CONTEXT_CHARS : Z).

Let ask := ask py_str str_of_exn OLLAMA_MODEL post index_query embed_query_local
               TOP_K MAX_CONTEXT_CHARS.
Let answer_question :=
  answer_question py_str str_of_exn OLLAMA_MODEL post index_query embed_query_local
                  TOP_K MAX_CONTEXT_CHARS.

(** X21.  A body without a question, or with a null, empty or blank one, is
    answered with status 400 and the error "empty question", whatever the
    embedder, the index and the model would do. *)
Theorem ask_blank_question (d : dict) :
  dict_lookup d "question" = None \/
  dict_lookup d "question" = Some PNone \/
  (exists q, dict_lookup d "question" = Some (PStr q) /\ strip q = EmptyString) ->
  ask (PDict d) = Ok (mk_reply 400 (PDict [("error", PStr "empty question")])).
Proof.
  unfold ask, AskRoute.ask, dict_get, py_or.
  intros [H|[H|(q & H & Hq)]]; rewrite H; simpl; [done|done|].
  destruct (negb (String.eqb q EmptyString)); by rewrite ?Hq.
Qed.

(** X22.  For a question that is not blank the route always replies: with
    status 500 and the text of the exception when the embedding, the index
    query or the context assembly raises, and with status 200 otherwise,
    also when the model call fails; then the answer is the fallback built
    from the context. *)
Theorem ask_reply_by_stage (d : dict) (q : string) :
  dict_lookup d "question" = Some (PStr q) ->
  strip q <> EmptyString ->
  (forall e, answer_question (strip q) = Raise e ->
     ask (PDict d) = Ok (mk_reply 500 (PDict [("error", PStr (str_of_exn e))]))) /\
  (forall q_vec matches context,
     embed_query_local (strip q) = Ok q_vec ->
     query_pinecone index_query q_vec TOP_K = Ok matches ->
     build_context_from_matches matches MAX_CONTEXT_CHARS = Ok context ->
     ask (PDict d) =
       Ok (mk_reply 200
             (PDict [("answer",
                      PStr (generate_answer_ollama py_str str_of_exn OLLAMA_MODEL post
                              context (strip q)));
                     ("context_preview", PStr (context_preview context))])) /\
     forall e,
       ollama_try py_str OLLAMA_MODEL post (build_prompt context (strip q)) = Raise e ->
       ask (PDict d) =
         Ok (mk_reply 200
               (PDict [("answer", PStr (ollama_fallback_extractive context (str_of_exn e)));
                       ("context_preview", PStr (context_preview context))]))).
Proof.
  intros Hq Hne.
  assert (Hask : ask (PDict d) =
                 match answer_question (strip q) with
                 | Ok r => Ok r
                 | Raise e => Ok (mk_reply 500 (PDict [("error", PStr (str_of_exn e))]))
                 end).
  { unfold ask, AskRoute.ask, dict_get, py_or. rewrite Hq. simpl.
    rewrite (eqb_empty_false _ (strip_nonempty_arg _ Hne)). simpl.
    by rewrite (eqb_empty_false _ Hne). }
  split.
  - intros e He. by rewrite Hask, He.
  - intros q_vec matches context Hvec Hmatches Hctx.
    assert (Hans : answer_question (strip q) =
              Ok (mk_reply 200
                    (PDict [("answer",
                             PStr (generate_answer_ollama py_str str_of_exn OLLAMA_MODEL post
                                     context (strip q)));
                            ("context_preview", PStr (context_preview context))]))).
    { unfold answer_question, AskRoute.answer_question.
      rewrite Hvec. cbn [mbind result_bind]. rewrite Hmatches. cbn [mbind result_bind].
      by rewrite Hctx. }
    split; [by rewrite Hask, Hans|].
    intros e He. rewrite Hask, Hans. unfold generate_answer_ollama. by rewrite He.
Qed.
End Ask.

(** An index that cannot be reached. *)
Lemma ask_reply_by_stage_witness :
  AskRoute.ask (fun _ => EmptyString) (fun _ => "index unreachable") "llama3.1:8b"
    (fun _ _ => NetworkError "refused")
    (fun _ _ => Raise (RuntimeError "index unreachable"))
    (fun _ => Ok (PList [PInt 1])) 5 2500
    (PDict [("question", PStr " What helps a fever? ")])
  = Ok (mk_reply 500 (PDict [("error", PStr "index unreachable")])).
Proof.
  apply (proj1 (ask_reply_by_stage (fun _ => EmptyString) (fun _ => "index unreachable")
                  "llama3.1:8b" (fun _ _ => NetworkError "refused")
                  (fun _ _ => Raise (RuntimeError "index unreachable"))
                  (fun _ => Ok (PList [PInt 1])) 5 2500
                  [("question", PStr " What helps a fever? ")] " What helps a fever? "
                  eq_refl ltac:(discriminate)) (RuntimeError "index unreachable")).
  reflexivity.
Defined.

Lemma ask_blank_question_witness :
  AskRoute.ask (fun _ => EmptyString) (fun _ => EmptyString) "llama3.1:8b"
    (fun _ _ => NetworkError "refused")
    (fun _ _ => Raise TypeError) (fun _ => Raise TypeError) 5 2500
    (PDict [("question", PStr "   ")])
  = Ok (mk_reply 400 (PDict [("error", PStr "empty question")])).
Proof.
  apply ask_blank_question. right. right. exists "   ". split; reflexivity.
Defined.

End AskFacts.
